(** * Synthetic test-data generators: [complexity/generator.py]

    A shallow embedding of [StringGenerator] and [GraphGenerator] and of
    the parts of Python's [random] module and of [networkx] they call,
    followed by the properties of the generated string pairs and graphs.

    Python integers are [Z]; [str] is [string]; a [list] is a [list]
    indexed the way Python indexes it; the attribute dictionaries of a
    networkx graph are finite maps.  Calls that consume entropy or may
    raise live in the monad [Rand]: a state monad over the random
    source whose result is either a value or a Python exception. *)

From stdpp Require Import gmap strings list fin_maps relations.

Open Scope Z_scope.

(** ** Python values, exceptions and sequences *)

Module Py.

Inductive exn : Type :=
| ValueError
| IndexError.

Inductive result (A : Type) : Type :=
| Ok (a : A)
| Raise (e : exn).
Arguments Ok {A} a.
Arguments Raise {A} e.

Definition len {A} (l : list A) : Z := Z.of_nat (length l).

(** [range(start, stop)]: empty when [stop <= start]. *)
Definition range (start stop : Z) : list Z := seqZ start (stop - start).

(** [l[i]] with Python's negative indices. *)
Definition getitem {A} (l : list A) (i : Z) : result A :=
  let i' := if i <? 0 then i + len l else i in
  if (0 <=? i') && (i' <? len l)
  then match l !! Z.to_nat i' with
       | Some x => Ok x
       | None => Raise IndexError
       end
  else Raise IndexError.

(** [l[i] = x]: the list after the assignment. *)
Definition setitem {A} (l : list A) (i : Z) (x : A) : result (list A) :=
  let i' := if i <? 0 then i + len l else i in
  if (0 <=? i') && (i' <? len l)
  then Ok (<[Z.to_nat i' := x]> l)
  else Raise IndexError.

(** The string made of the single character [c]. *)
Definition char_str (c : Ascii.ascii) : string := String c EmptyString.

(** [list(s)] for a string [s]: its characters, each a string. *)
Definition list_of_str (s : string) : list string :=
  char_str <$> String.list_ascii_of_string s.

(** [sep.join(xs)]. *)
Definition join (sep : string) (xs : list string) : string :=
  String.concat sep xs.

(** Truth value of an optional list argument: [None] and [[]] are
    falsy. *)
Definition truthy {A} (o : option (list A)) : bool :=
  match o with
  | Some (_ :: _) => true
  | _ => false
  end.

End Py.

Import Py.

(** ** The [random] module *)

(** The entropy source behind the module.  [rs_random] is
    [random.random()]: the float it returns is [k / 2^53] for a 53-bit
    integer [k], and the draw is represented by [k].  [rs_randbelow n]
    is [Random._randbelow(n)], an integer of [[0, n)] for positive [n].
    [rs_seed a] is the state [random.seed(a)] installs. *)
Class RandomSource (G : Type) : Type := {
  rs_seed : Z -> G;
  rs_random : G -> Z * G;
  rs_randbelow : Z -> G -> Z * G;
  rs_random_range : forall g, 0 <= (rs_random g).1 < 2 ^ 53;
  rs_randbelow_range : forall n g, 0 < n -> 0 <= (rs_randbelow n g).1 < n
}.

Module Random.

(** Computations that read and advance the module's state [G] and
    may raise. *)
Definition Rand (G A : Type) : Type := G -> result A * G.

Section Random.
Context {G : Type} {RS : RandomSource G}.

Definition ret {A} (a : A) : Rand G A := fun g => (Ok a, g).

Definition raise {A} (e : exn) : Rand G A := fun g => (Raise e, g).

Definition bind {A B} (c : Rand G A) (k : A -> Rand G B) : Rand G B :=
  fun g =>
    match c g with
    | (Ok a, g') => k a g'
    | (Raise e, g') => (Raise e, g')
    end.

Definition lift {A} (r : result A) : Rand G A := fun g => (r, g).

(** [for x in xs: acc = body(x, acc)] *)
Fixpoint for_each {A B} (xs : list A) (body : A -> B -> Rand G B) (acc : B)
  : Rand G B :=
  match xs with
  | [] => ret acc
  | x :: xs' => bind (body x acc) (for_each xs' body)
  end.

(** [[f(x) for x in xs]] *)
Fixpoint comprehension {A B} (xs : list A) (f : A -> Rand G B)
  : Rand G (list B) :=
  match xs with
  | [] => ret []
  | x :: xs' =>
      bind (f x) (fun y => bind (comprehension xs' f) (fun ys => ret (y :: ys)))
  end.

(** [random.seed(a)] *)
Definition seed (a : Z) : Rand G unit := fun _ => (Ok tt, rs_seed a).

(** [random.random()], as the numerator [k] of [k / 2^53]. *)
Definition random : Rand G Z :=
  fun g => let '(k, g') := rs_random g in (Ok k, g').

(** [x < 0.3] for [x = k / 2^53]: the double nearest to 0.3 is
    [5404319552844595 / 2^54]. *)
Definition lt_0_3 (k : Z) : bool := 2 * k <? 5404319552844595.

Definition _randbelow (n : Z) : Rand G Z :=
  fun g => let '(r, g') := rs_randbelow n g in (Ok r, g').

(** [random.randrange(start, stop)] *)
Definition randrange (start stop : Z) : Rand G Z :=
  let width := stop - start in
  if 0 <? width
  then bind (_randbelow width) (fun r => ret (start + r))
  else raise ValueError.

(** [random.randint(a, b)] *)
Definition randint (a b : Z) : Rand G Z := randrange a (b + 1).

(** [random.choice(seq)] *)
Definition choice {A} (seq : list A) : Rand G A :=
  if len seq =? 0
  then raise IndexError
  else bind (_randbelow (len seq)) (fun i => lift (getitem seq i)).

(** [random.choices(population, k=k)] without weights:
    [[population[floor(random() * n)] for _ in repeat(None, k)]].
    The product is taken exactly. *)
Definition choices {A} (population : list A) (k : Z) : Rand G (list A) :=
  let n := len population in
  comprehension (range 0 k)
    (fun _ => bind random (fun x => lift (getitem population (x * n / 2 ^ 53)))).

End Random.
End Random.

Import Random.

Declare Scope rand_scope.
Delimit Scope rand_scope with rand.
Notation "'let*' x ':=' c 'in' k" := (bind c (fun x => k))
  (at level 10, x pattern, c at level 100, k at level 200) : rand_scope.
Open Scope rand_scope.

(** ** [class StringGenerator] *)

Module StringGenerator.

Record t : Type := { alphabet : list string }.

Definition default_alphabet : list string := ["A"; "B"; "C"]%string.

(** [self.alphabet = alphabet if alphabet else ['A', 'B', 'C']] *)
Definition __init__ (alphabet : option (list string)) : result t :=
  Ok {| alphabet := if truthy alphabet
                    then default [] alphabet
                    else default_alphabet |}.

Section StringGenerator.
Context {G : Type} {RS : RandomSource G}.

Definition generate (self : t) (size : Z) : Rand G string :=
  let* xs := choices (alphabet self) size in
  ret (join "" xs).

Definition generate_pair (self : t) (len1 len2 : Z) (similar : bool)
  : Rand G (string * string) :=
  let* str1 := generate self len1 in
  if similar then
    let str2 := list_of_str str1 in
    let* k := randint 1 (len1 / 3) in
    let* str2 :=
      for_each (range 0 k)
        (fun _ str2 =>
           let* idx := randint 0 (len str2 - 1) in
           let* c := choice (alphabet self) in
           lift (setitem str2 idx c))
        str2 in
    ret (str1, join "" str2)
  else
    let* str2 := generate self len2 in
    ret (str1, str2).

End StringGenerator.
End StringGenerator.

(** ** [networkx]: [Graph] and [DiGraph] *)

Module Nx.

(** [_node] lists the nodes in insertion order (the keys of the node
    dictionary; node attributes are never set).  [_adj] is the
    adjacency dictionary of dictionaries, [_adj[u][v]] holding the
    [weight] attribute of the edge; for a [DiGraph] it is the successor
    dictionary [_succ] (the predecessor dictionary mirrors it and is not
    read by [nodes] or [edges]). *)
Record Graph : Type := {
  directed : bool;
  _node : list Z;
  _adj : gmap Z (gmap Z Z)
}.

(** [nx.Graph()] *)
Definition new_Graph : Graph :=
  {| directed := false; _node := []; _adj := ∅ |}.

(** [nx.DiGraph()] *)
Definition new_DiGraph : Graph :=
  {| directed := true; _node := []; _adj := ∅ |}.

(** [graph.add_node(n)]: a node already present is left as it is. *)
Definition add_node (n : Z) (graph : Graph) : Graph :=
  if decide (n ∈ _node graph) then graph
  else {| directed := directed graph;
          _node := _node graph ++ [n];
          _adj := <[n := ∅]> (_adj graph) |}.

(** [_adj[u][v] = weight] *)
Definition set_adj (u v weight : Z) (adj : gmap Z (gmap Z Z))
  : gmap Z (gmap Z Z) :=
  <[u := <[v := weight]> (adj !!! u)]> adj.

(** [graph.add_edge(u, v, weight=weight)]: missing end points are
    added, an existing edge has its weight overwritten, and an
    undirected graph records the edge under both end points. *)
Definition add_edge (u v weight : Z) (graph : Graph) : Graph :=
  let graph := add_node v (add_node u graph) in
  {| directed := directed graph;
     _node := _node graph;
     _adj := if directed graph
             then set_adj u v weight (_adj graph)
             else set_adj v u weight (set_adj u v weight (_adj graph)) |}.

(** [graph.nodes] *)
Definition nodes (graph : Graph) : list Z := _node graph.

Definition row (n : Z) (nbrs : gmap Z Z) : list (Z * Z * Z) :=
  (fun p => (n, p.1, p.2)) <$> map_to_list nbrs.

(** [DiGraph.edges(data=True)]: every successor entry. *)
Definition out_edges (adj : gmap Z (gmap Z Z)) (ns : list Z)
  : list (Z * Z * Z) :=
  n ← ns; row n (adj !!! n).

(** [Graph.edges(data=True)]: an edge is reported from the end point
    met first; neighbours already [seen] are skipped. *)
Fixpoint once_edges (adj : gmap Z (gmap Z Z)) (ns : list Z) (seen : gset Z)
  : list (Z * Z * Z) :=
  match ns with
  | [] => []
  | n :: ns' =>
      filter (fun e => e.1.2 ∉ seen) (row n (adj !!! n))
        ++ once_edges adj ns' ({[n]} ∪ seen)
  end.

(** [graph.edges(data=True)] as triples [(u, v, weight)]. *)
Definition edges (graph : Graph) : list (Z * Z * Z) :=
  if directed graph
  then out_edges (_adj graph) (_node graph)
  else once_edges (_adj graph) (_node graph) ∅.

End Nx.

(** ** [class GraphGenerator] *)

Module GraphGenerator.

Record t : Type := { directed : bool; weighted : bool }.

(** [GraphGenerator(directed=False, weighted=True)] *)
Definition __init__ (directed weighted : option bool) : result t :=
  Ok {| directed := default false directed;
        weighted := default true weighted |}.

Section GraphGenerator.
Context {G : Type} {RS : RandomSource G}.

Definition generate (self : t) (size : Z) : Rand G Nx.Graph :=
  let graph := if directed self then Nx.new_DiGraph else Nx.new_Graph in
  let* graph :=
    for_each (range 0 size)
      (fun i graph => ret (Nx.add_node i graph)) graph in
  let* graph :=
    for_each (range 0 size)
      (fun i graph =>
         for_each (range (i + 1) size)
           (fun j graph =>
              let* x := random in
              if lt_0_3 x then
                let* weight :=
                  (if weighted self then randint 1 10 else ret 1) in
                ret (Nx.add_edge i j weight graph)
              else ret graph)
           graph)
      graph in
  ret graph.

End GraphGenerator.
End GraphGenerator.

(** ** [class LinearDataGenerator] *)

Module LinearDataGenerator.

(** [list(range(1, size + 1))]; the generator has no fields and draws
    nothing. *)
Definition generate (size : Z) : list Z := range 1 (size + 1).

End LinearDataGenerator.

(** ** [class RandomDataGenerator] *)

Module RandomDataGenerator.

Record t : Type := { low : Z; high : Z }.

(** [RandomDataGenerator(low=0, high=100)] *)
Definition __init__ (low high : option Z) : result t :=
  Ok {| low := default 0 low; high := default 100 high |}.

Section RandomDataGenerator.
Context {G : Type} {RS : RandomSource G}.

(** [[random.randint(self.low, self.high) for _ in range(size)]] *)
Definition generate (self : t) (size : Z) : Rand G (list Z) :=
  comprehension (range 0 size) (fun _ => randint (low self) (high self)).

End RandomDataGenerator.
End RandomDataGenerator.

(** ** [class NumberGenerator] *)

Module NumberGenerator.

(** [fixed] is [None] unless a fixed value was given. *)
Record t : Type := { low : Z; high : Z; fixed : option Z }.

(** [NumberGenerator(low=0, high=100, fixed=None)] *)
Definition __init__ (low high fixed : option Z) : result t :=
  Ok {| low := default 0 low; high := default 100 high; fixed := fixed |}.

Section NumberGenerator.
Context {G : Type} {RS : RandomSource G}.

(** [size] is accepted and not read. *)
Definition generate (self : t) (size : Z) : Rand G Z :=
  match fixed self with
  | Some value => ret value
  | None => randint (low self) (high self)
  end.

End NumberGenerator.
End NumberGenerator.

(** ** [class DataGeneratorFactory]

    The registry is a dictionary from names to generator objects; the
    factory never looks inside a generator, so their type is a
    parameter.  The methods update the factory in place: here they
    return the factory after the call. *)

Module DataGeneratorFactory.
Section DataGeneratorFactory.
Context {Gen : Type}.

Record t : Type := { generators : gmap string Gen }.

(** [self.generators = {}] *)
Definition __init__ : t := {| generators := ∅ |}.

(** [self.generators[name] = generator] *)
Definition register_generator (name : string) (generator : Gen) (self : t) : t :=
  {| generators := <[name := generator]> (generators self) |}.

(** [if name not in self.generators: raise ValueError(...)], else
    [self.generators[name]]. *)
Definition get_generator (name : string) (self : t) : result Gen :=
  match generators self !! name with
  | None => Raise ValueError
  | Some generator => Ok generator
  end.

End DataGeneratorFactory.
Arguments t Gen : clear implicits.
End DataGeneratorFactory.

(** ** A scripted random source

    A test double for the [random] module: the state is the tape of raw
    values still to be drawn, each draw reduces the next raw value into
    the requested range, an exhausted tape yields zero, and [seed a]
    rewinds to the tape the [book] lists for [a]. *)

Module Tape.
Section Tape.
Variable book : Z -> list Z.

Definition draw (bound : Z) (tape : list Z) : Z * list Z :=
  match tape with
  | [] => (0, [])
  | x :: tape' => (x `mod` bound, tape')
  end.

Lemma draw_range bound tape : 0 < bound -> 0 <= (draw bound tape).1 < bound.
Proof.
  intros Hb. destruct tape as [|x tape]; simpl; [lia|].
  apply Z.mod_pos_bound. exact Hb.
Qed.

Definition source : RandomSource (list Z) := {|
  rs_seed := book;
  rs_random := draw (2 ^ 53);
  rs_randbelow := draw;
  rs_random_range := fun g => draw_range (2 ^ 53) g eq_refl;
  rs_randbelow_range := draw_range
|}.

End Tape.
End Tape.

(** Tapes and generators of the worked examples.  A raw value [k] read
    by [random()] stands for the float [k / 2^53]: [0] is [0.0], [half]
    is [0.5] and [top] is the largest float below [1.0]. *)

Module Fixture.

Definition quarter : Z := 2251799813685248.
Definition half : Z := 4503599627370496.
Definition top : Z := 9007199254740991.

(** Six Bernoulli draws for the pairs of four nodes, each success
    followed by the raw value of its weight. *)
Definition tape_graph : list Z := [0; 4; half; 0; 12; half; 0; 9; 0; 0].

(** Ten symbol draws, the mutation count, then three mutations
    (index, symbol). *)
Definition tape_pair : list Z :=
  [0; quarter; half; top; 5; 5; 5; 5; 5; 5; 2; 3; 1; 9; 0; 0; 3].

(** [random.seed(42)] rewinds to [tape_graph]; other seeds give the
    exhausted tape. *)
Definition book (a : Z) : list Z := if a =? 42 then tape_graph else [].

#[export] Instance source : RandomSource (list Z) := Tape.source book.

(** [StringGenerator(['A', 'C', 'G', 'T'])], as [main] registers it. *)
Definition acgt : StringGenerator.t :=
  {| StringGenerator.alphabet := ["A"; "C"; "G"; "T"]%string |}.

(** [GraphGenerator(directed=True, weighted=True)], as [main]
    registers it. *)
Definition digraph : GraphGenerator.t :=
  {| GraphGenerator.directed := true; GraphGenerator.weighted := true |}.

End Fixture.

(** ** Vocabulary of the properties *)

Section Outcomes.
Context {G : Type} {RS : RandomSource G}.

(** [c] returns normally from every state of the source, with a value
    satisfying [P]. *)
Definition returns {A} (c : Rand G A) (P : A -> Prop) : Prop :=
  forall g, exists a g', c g = (Ok a, g') /\ P a.

(** [c], run from [g], raises instead of returning. *)
Definition rejects {A} (c : Rand G A) (g : G) : Prop :=
  exists e g', c g = (Raise e, g').

End Outcomes.

(** A string of length one: a character. *)
Definition is_char (s : string) : Prop := String.length s = 1%nat.

(** The alphabets of the data model: every symbol is a character. *)
Definition symbols_are_chars (alphabet : option (list string)) : Prop :=
  forall a, alphabet = Some a -> Forall is_char a.

(** Number of positions, up to the shorter length, at which two
    sequences differ. *)
Fixpoint mismatches {A} `{EqDecision A} (xs ys : list A) : nat :=
  match xs, ys with
  | x :: xs', y :: ys' =>
      ((if decide (x = y) then 0 else 1) + mismatches xs' ys')%nat
  | _, _ => 0%nat
  end.

(** Hamming distance of two strings: the positions at which they
    differ, counted character by character. *)
Definition hamming (s1 s2 : string) : nat :=
  mismatches (String.list_ascii_of_string s1) (String.list_ascii_of_string s2).

(** [s] is a concatenation of symbols of [alphabet]. *)
Definition drawn_from (alphabet : list string) (s : string) : Prop :=
  exists xs, s = join "" xs /\ Forall (fun x => x ∈ alphabet) xs.

(** The adjacency dictionary holds [adj[u][v] == w]. *)
Definition entry (adj : gmap Z (gmap Z Z)) (u v w : Z) : Prop :=
  (adj !!! u) !! v = Some w.

(** The weights a generator may give: 1 to 10 when [weighted], else 1. *)
Definition weight_ok (weighted : bool) (w : Z) : Prop :=
  if weighted then 1 <= w <= 10 else w = 1.

(** The end points of an edge triple. *)
Definition ends (e : Z * Z * Z) : Z * Z := (e.1.1, e.1.2).

(** What holds of the graph of [GraphGenerator.generate] while its edges
    are being added: the directedness of the generator, the nodes
    [range(size)] in order, and adjacency entries whose end points are
    in order (distinct, when undirected) and whose weights are in the
    generator's range. *)
Definition generated (self : GraphGenerator.t) (size : Z) (graph : Nx.Graph)
  : Prop :=
  Nx.directed graph = GraphGenerator.directed self /\
  Nx._node graph = range 0 size /\
  forall u v w, entry (Nx._adj graph) u v w ->
    (if GraphGenerator.directed self then u < v else u <> v) /\
    weight_ok (GraphGenerator.weighted self) w.

(** The end points of every adjacency entry are nodes of
    [range(size)]. *)
Definition within (size : Z) (adj : gmap Z (gmap Z Z)) : Prop :=
  forall u v w, entry adj u v w -> 0 <= u < size /\ 0 <= v < size.

(** Every adjacency entry has its mirror image. *)
Definition symmetric (adj : gmap Z (gmap Z Z)) : Prop :=
  forall u v w, entry adj u v w -> entry adj v u w.

(** The pairs the edge loops of [GraphGenerator.generate] visit:
    [for i in range(size): for j in range(i + 1, size)]. *)
Definition visited_pairs (size : Z) : list (Z * Z) :=
  i ← range 0 size; (fun j => (i, j)) <$> range (i + 1) size.

(** A run of registrations, as the set-up of [main] makes them. *)
Definition register_all {Gen} (regs : list (string * Gen))
    (factory : DataGeneratorFactory.t Gen) : DataGeneratorFactory.t Gen :=
  foldl (fun f reg => DataGeneratorFactory.register_generator reg.1 reg.2 f)
    factory regs.

(** [graph] has an edge from [u] to [v]. *)
Definition edge (graph : Nx.Graph) (u v : Z) : Prop :=
  exists w, (u, v, w) ∈ Nx.edges graph.

(** * Properties *)

(** ** The monad and the [random] module *)

Section RandFacts.
Context {G : Type} {RS : RandomSource G}.

Lemma returns_ret {A} (a : A) (P : A -> Prop) : P a -> returns (G := G) (ret a) P.
Proof. intros HP g. exists a, g. split; [reflexivity | exact HP]. Qed.

Lemma returns_lift {A} (a : A) (P : A -> Prop) r :
  r = Ok a -> P a -> returns (G := G) (lift r) P.
Proof. intros -> HP g. exists a, g. split; [reflexivity | exact HP]. Qed.

Lemma returns_bind {A B} (c : Rand G A) (k : A -> Rand G B) P Q :
  returns c P -> (forall a, P a -> returns (k a) Q) -> returns (bind c k) Q.
Proof.
  intros Hc Hk g. destruct (Hc g) as (a & g1 & Ha & HP).
  destruct (Hk a HP g1) as (b & g2 & Hb & HQ).
  exists b, g2. split; [|exact HQ]. unfold bind. rewrite Ha. exact Hb.
Qed.

Lemma returns_impl {A} (c : Rand G A) (P Q : A -> Prop) :
  returns c P -> (forall a, P a -> Q a) -> returns c Q.
Proof.
  intros Hc HPQ g. destruct (Hc g) as (a & g' & Ha & HP).
  exists a, g'. auto.
Qed.

(** What a returning computation returned satisfies its postcondition. *)
Lemma returns_outcome {A} (c : Rand G A) P g a g' :
  returns c P -> c g = (Ok a, g') -> P a.
Proof.
  intros Hc Hrun. destruct (Hc g) as (a' & g1 & Ha & HP).
  rewrite Ha in Hrun. by simplify_eq.
Qed.

Lemma returns_not_rejects {A} (c : Rand G A) P g :
  returns c P -> ~ rejects c g.
Proof.
  intros Hc (e & g' & He). destruct (Hc g) as (a & g1 & Ha & _).
  rewrite Ha in He. discriminate.
Qed.

(** A loop whose body returns and takes the invariant from step [n] to
    step [S n] returns with the invariant at the number of
    iterations. *)
Lemma returns_for_each {A B} (xs : list A) (body : A -> B -> Rand G B)
    (Inv : nat -> B -> Prop) n acc :
  Inv n acc ->
  (forall x m b, x ∈ xs -> Inv m b -> returns (body x b) (Inv (S m))) ->
  returns (for_each xs body acc) (Inv (n + length xs)%nat).
Proof.
  revert n acc. induction xs as [|x xs IH]; intros n acc Hinv Hbody; simpl.
  - rewrite Nat.add_0_r. by apply returns_ret.
  - replace (n + S (length xs))%nat with (S n + length xs)%nat by lia.
    eapply returns_bind.
    + apply (Hbody x n acc); [left | exact Hinv].
    + intros b Hb. apply IH; [exact Hb|].
      intros y m b' Hy. apply Hbody. by right.
Qed.

(** The same with an invariant that does not count. *)
Lemma returns_for_each_inv {A B} (xs : list A) (body : A -> B -> Rand G B)
    (Inv : B -> Prop) acc :
  Inv acc ->
  (forall x b, x ∈ xs -> Inv b -> returns (body x b) Inv) ->
  returns (for_each xs body acc) Inv.
Proof.
  intros Hinv Hbody.
  apply (returns_for_each xs body (fun _ => Inv) 0 acc Hinv).
  intros x _ b. apply Hbody.
Qed.

Lemma returns_comprehension {A B} (xs : list A) (f : A -> Rand G B) P :
  (forall x, x ∈ xs -> returns (f x) P) ->
  returns (comprehension xs f)
    (fun ys => length ys = length xs /\ Forall P ys).
Proof.
  induction xs as [|x xs IH]; intros Hf; simpl.
  - apply returns_ret. by split.
  - eapply returns_bind; [apply Hf; left|].
    intros y Hy. eapply returns_bind.
    + apply IH. intros z Hz. apply Hf. by right.
    + intros ys [Hlen Hall]. apply returns_ret.
      split; [simpl; by rewrite Hlen | by constructor].
Qed.

Lemma getitem_in_range {A} (l : list A) i :
  0 <= i < len l -> exists x, getitem l i = Ok x /\ x ∈ l.
Proof.
  intros Hi. unfold getitem, len in *.
  destruct (i <? 0) eqn:Hneg; [lia|].
  assert (Hlt : (Z.to_nat i < length l)%nat) by lia.
  destruct (lookup_lt_is_Some_2 l _ Hlt) as [x Hx].
  exists x. rewrite Hx.
  replace ((0 <=? i) && (i <? Z.of_nat (length l))) with true
    by (symmetry; apply andb_true_iff; lia).
  split; [reflexivity|]. by eapply list_elem_of_lookup_2.
Qed.

Lemma setitem_in_range {A} (l : list A) i x :
  0 <= i < len l -> setitem l i x = Ok (<[Z.to_nat i := x]> l).
Proof.
  intros Hi. unfold setitem, len in *.
  destruct (i <? 0) eqn:Hneg; [lia|].
  replace ((0 <=? i) && (i <? Z.of_nat (length l))) with true
    by (symmetry; apply andb_true_iff; lia).
  reflexivity.
Qed.

Lemma random_returns : returns random (fun k => 0 <= k < 2 ^ 53).
Proof.
  intros g. unfold random. pose proof (rs_random_range g) as Hr.
  destruct (rs_random g) as [k g']. by exists k, g'.
Qed.

Lemma _randbelow_returns n :
  0 < n -> returns (_randbelow n) (fun r => 0 <= r < n).
Proof.
  intros Hn g. unfold _randbelow. pose proof (rs_randbelow_range n g Hn) as Hr.
  destruct (rs_randbelow n g) as [r g']. by exists r, g'.
Qed.

Lemma randint_returns a b :
  a <= b -> returns (randint a b) (fun r => a <= r <= b).
Proof.
  intros Hab. unfold randint, randrange.
  destruct (0 <? b + 1 - a) eqn:Hw; [|lia].
  eapply returns_bind; [apply _randbelow_returns; lia|].
  intros r Hr. apply returns_ret. cbv beta in *. lia.
Qed.

(** [randint(a, b)] with [b < a]: "empty range". *)
Lemma randint_empty a b g :
  b < a -> randint a b g = (Raise ValueError, g).
Proof.
  intros Hab. unfold randint, randrange.
  destruct (0 <? b + 1 - a) eqn:Hw; [lia|]. reflexivity.
Qed.

Lemma choice_returns {A} (seq : list A) :
  seq <> [] -> returns (choice seq) (fun x => x ∈ seq).
Proof.
  intros Hne. unfold choice.
  assert (Hlen : 0 < len seq) by (destruct seq; [done | unfold len; simpl; lia]).
  destruct (len seq =? 0) eqn:H0; [lia|].
  eapply returns_bind; [by apply _randbelow_returns|].
  intros i Hi. cbv beta in Hi.
  destruct (getitem_in_range seq i Hi) as (x & Hx & Hin).
  by eapply returns_lift.
Qed.

Lemma choices_returns {A} (population : list A) k :
  population <> [] ->
  returns (choices population k)
    (fun xs => length xs = Z.to_nat k /\ Forall (fun x => x ∈ population) xs).
Proof.
  intros Hne. unfold choices.
  assert (Hlen : 0 < len population)
    by (destruct population; [done | unfold len; simpl; lia]).
  eapply returns_impl.
  - apply returns_comprehension. intros _ _.
    eapply returns_bind; [apply random_returns|].
    intros x Hx. cbv beta in Hx.
    assert (Hi : 0 <= x * len population / 2 ^ 53 < len population).
    { split; [apply Z.div_pos; lia|].
      apply Z.div_lt_upper_bound; [lia|]. nia. }
    destruct (getitem_in_range population _ Hi) as (y & Hy & Hin).
    eapply returns_lift; [exact Hy | exact Hin].
  - intros xs [Hl Hall]. split; [|exact Hall].
    rewrite Hl. unfold range. rewrite length_seqZ. f_equal. lia.
Qed.

End RandFacts.

(** ** Strings and sequences of characters *)

Section Strings.

Lemma is_char_inv s : is_char s -> exists c, s = char_str c.
Proof.
  unfold is_char. destruct s as [|c [|c' s]]; simpl; try discriminate.
  intros _. by exists c.
Qed.

Lemma chars_inv xs : Forall is_char xs -> exists cs, xs = char_str <$> cs.
Proof.
  induction 1 as [|s xs Hs _ (cs & ->)]; [by exists []|].
  destruct (is_char_inv s Hs) as (c & ->). by exists (c :: cs).
Qed.

Lemma join_chars cs :
  join "" (char_str <$> cs) = String.string_of_list_ascii cs.
Proof.
  induction cs as [|c cs IH]; [reflexivity|].
  unfold join in *. destruct cs as [|c' cs]; [reflexivity|].
  change (String.concat "" (char_str <$> c :: c' :: cs))
    with (String c (String.concat "" (char_str <$> c' :: cs))).
  by rewrite IH.
Qed.

Lemma list_of_str_join cs : list_of_str (join "" (char_str <$> cs)) = char_str <$> cs.
Proof.
  unfold list_of_str.
  by rewrite join_chars, String.list_ascii_of_string_of_list_ascii.
Qed.

Lemma length_join_chars cs :
  String.length (join "" (char_str <$> cs)) = length cs.
Proof.
  rewrite join_chars. induction cs as [|c cs IH]; simpl; [done | by rewrite IH].
Qed.

Lemma mismatches_refl {A} `{EqDecision A} (xs : list A) : mismatches xs xs = 0%nat.
Proof.
  induction xs as [|x xs IH]; simpl; [done|]. by rewrite decide_True, IH.
Qed.

(** One assignment changes the number of differing positions by at
    most one. *)
Lemma mismatches_insert {A} `{EqDecision A} (xs ys : list A) i y :
  (mismatches xs (<[i := y]> ys) <= S (mismatches xs ys))%nat.
Proof.
  revert ys i. induction xs as [|x xs IH]; intros [|y' ys] [|i]; simpl; try lia.
  - repeat case_decide; lia.
  - specialize (IH ys i). lia.
Qed.

Lemma mismatches_fmap {A B} `{EqDecision A} `{EqDecision B} (f : A -> B)
    (xs ys : list A) :
  Inj (=) (=) f -> mismatches (f <$> xs) (f <$> ys) = mismatches xs ys.
Proof.
  intros Hf. revert ys. induction xs as [|x xs IH]; intros [|y ys]; simpl; try done.
  rewrite IH. repeat case_decide; try done.
  - exfalso. apply H0. by apply Hf.
  - exfalso. apply H. by f_equal.
Qed.

Lemma char_str_inj : Inj (=) (=) char_str.
Proof. intros c1 c2 Heq. by injection Heq. Qed.

(** The Hamming distance of two joined character sequences is the
    number of positions at which the sequences differ. *)
Lemma hamming_join_chars xs ys :
  Forall is_char xs -> Forall is_char ys ->
  hamming (join "" xs) (join "" ys) = mismatches xs ys.
Proof.
  intros (cs & ->)%chars_inv (ds & ->)%chars_inv. unfold hamming.
  rewrite !join_chars, !String.list_ascii_of_string_of_list_ascii.
  symmetry. apply mismatches_fmap, char_str_inj.
Qed.

Lemma length_join xs :
  Forall is_char xs -> String.length (join "" xs) = length xs.
Proof.
  intros (cs & ->)%chars_inv. by rewrite length_join_chars, length_fmap.
Qed.

Lemma list_of_str_join_chars xs :
  Forall is_char xs -> list_of_str (join "" xs) = xs.
Proof. intros (cs & ->)%chars_inv. apply list_of_str_join. Qed.

Lemma Forall_elem_of_weaken {A} (P : A -> Prop) (l xs : list A) :
  Forall P l -> Forall (fun x => x ∈ l) xs -> Forall P xs.
Proof.
  intros Hl Hxs. eapply Forall_impl; [exact Hxs|].
  intros x Hx. by eapply (proj1 (Forall_forall _ _) Hl).
Qed.

End Strings.

(** ** [StringGenerator] *)

Section StringGeneratorFacts.
Context {G : Type} {RS : RandomSource G}.

Import StringGenerator.

(** The constructor never leaves the alphabet empty. *)
Lemma init_alphabet_nonempty alphabet self :
  __init__ alphabet = Ok self -> StringGenerator.alphabet self <> [].
Proof.
  unfold __init__. intros [= <-]. simpl.
  by destruct alphabet as [[|x a]|].
Qed.

Lemma init_alphabet_chars alphabet self :
  symbols_are_chars alphabet -> __init__ alphabet = Ok self ->
  Forall is_char (StringGenerator.alphabet self).
Proof.
  unfold __init__. intros Hchars [= <-]. simpl.
  destruct alphabet as [[|x a]|]; simpl.
  - by repeat constructor.
  - by apply Hchars.
  - by repeat constructor.
Qed.

(** [generate(size)] returns the concatenation of [max(size, 0)]
    symbols of the alphabet. *)
Lemma string_generate_returns self size :
  alphabet self <> [] ->
  returns (generate self size)
    (fun s => exists xs : list string,
       s = join "" xs /\ length xs = Z.to_nat size /\
       Forall (fun x => x ∈ alphabet self) xs).
Proof.
  intros Hne. unfold generate.
  eapply returns_bind; [by apply choices_returns|].
  intros xs [Hlen Hall]. apply returns_ret. by exists xs.
Qed.

(** With [similar=True] and [len1 < 3] the mutation count cannot be
    drawn: [randint(1, len1 // 3)] has an empty range. *)
Lemma generate_pair_similar_short self len1 len2 g :
  alphabet self <> [] -> len1 < 3 ->
  exists g', generate_pair self len1 len2 true g = (Raise ValueError, g').
Proof.
  intros Hne Hshort. unfold generate_pair, bind at 1.
  destruct (string_generate_returns self len1 Hne g) as (str1 & g1 & -> & _).
  exists g1. unfold bind at 1. rewrite randint_empty; [reflexivity|].
  assert (len1 / 3 <= 0); [|lia].
  apply Z.lt_succ_r, Z.div_lt_upper_bound; lia.
Qed.

(** With [similar=True], [3 <= len1] and an alphabet of characters the
    call returns [len1] symbols and a copy of them changed by at most
    [len1 // 3] assignments. *)
Lemma generate_pair_similar_returns self len1 len2 :
  alphabet self <> [] -> Forall is_char (alphabet self) -> 3 <= len1 ->
  returns (generate_pair self len1 len2 true)
    (fun p => exists xs ys : list string,
       p.1 = join "" xs /\ p.2 = join "" ys /\
       length xs = Z.to_nat len1 /\ length ys = length xs /\
       Forall (fun x => x ∈ alphabet self) xs /\
       Forall (fun y => y ∈ alphabet self) ys /\
       Z.of_nat (mismatches xs ys) <= len1 / 3).
Proof.
  intros Hne Hchars Hlen1. unfold generate_pair.
  eapply returns_bind; [by apply string_generate_returns|].
  intros str1 (xs & -> & Hlen & Hall). cbv zeta.
  assert (Hxs : Forall is_char xs)
    by exact (Forall_elem_of_weaken _ _ _ Hchars Hall).
  rewrite (list_of_str_join_chars xs Hxs).
  assert (Hk3 : 1 <= len1 / 3) by (apply Z.div_le_lower_bound; lia).
  eapply returns_bind; [by apply randint_returns|].
  intros k Hk. cbv beta in Hk.
  eapply returns_bind.
  - apply (returns_for_each (range 0 k) _
             (fun n ys => length ys = length xs /\
                          Forall (fun y => y ∈ alphabet self) ys /\
                          (mismatches xs ys <= n)%nat) 0 xs).
    + split; [done|]. split; [done|]. by rewrite mismatches_refl.
    + intros _ m str2 _ (Hl & Hin & Hm).
      eapply returns_bind; [apply randint_returns; unfold len; lia|].
      intros idx Hidx. cbv beta in Hidx.
      eapply returns_bind; [by apply choice_returns|].
      intros c Hc. cbv beta in Hc.
      eapply returns_lift; [apply setitem_in_range; lia|].
      split; [by rewrite length_insert|].
      split; [by apply Forall_insert|].
      pose proof (mismatches_insert xs str2 (Z.to_nat idx) c). lia.
  - intros ys (Hl & Hin & Hm). apply returns_ret. exists xs, ys.
    repeat split; try done. simpl in Hm.
    unfold range in Hm. rewrite length_seqZ in Hm. lia.
Qed.

End StringGeneratorFacts.

Section StringGeneratorPairs.
Context {G : Type} {RS : RandomSource G}.

Import StringGenerator.

(** With [similar=False] the two strings are drawn one after the
    other, [max(len1, 0)] and [max(len2, 0)] symbols long. *)
Lemma generate_pair_independent_returns self len1 len2 :
  alphabet self <> [] ->
  returns (generate_pair self len1 len2 false)
    (fun p => exists xs ys : list string,
       p.1 = join "" xs /\ p.2 = join "" ys /\
       length xs = Z.to_nat len1 /\ length ys = Z.to_nat len2 /\
       Forall (fun x => x ∈ alphabet self) xs /\
       Forall (fun y => y ∈ alphabet self) ys).
Proof.
  intros Hne. unfold generate_pair.
  eapply returns_bind; [by apply string_generate_returns|].
  intros str1 (xs & -> & Hxlen & Hxs).
  eapply returns_bind; [by apply string_generate_returns|].
  intros str2 (ys & -> & Hylen & Hys).
  apply returns_ret. by exists xs, ys.
Qed.

(** C1, as the code has it: for positive [len1] and [len2] and an
    alphabet whose symbols are single characters (an empty or missing
    alphabet standing for the default), whenever
    [generate_pair(len1, len2, similar=True)] returns [(str1, str2)],
    the Hamming distance between the two strings is at most
    [max(1, len1 // 3)] and [len(str2) == len(str1)]. *)
Theorem generate_pair_similar_bound alphabet self len1 len2 g str1 str2 g' :
  0 < len1 -> 0 < len2 ->
  symbols_are_chars alphabet ->
  __init__ alphabet = Ok self ->
  generate_pair self len1 len2 true g = (Ok (str1, str2), g') ->
  Z.of_nat (hamming str1 str2) <= Z.max 1 (len1 / 3) /\
  String.length str2 = String.length str1.
Proof.
  intros _ _ Hchars Hinit Hrun.
  pose proof (init_alphabet_nonempty _ _ Hinit) as Hne.
  pose proof (init_alphabet_chars _ _ Hchars Hinit) as Hsym.
  destruct (Z.lt_ge_cases len1 3) as [Hshort | Hlong].
  - destruct (generate_pair_similar_short self len1 len2 g Hne Hshort)
      as (g1 & Hfail).
    rewrite Hfail in Hrun. discriminate.
  - pose proof (returns_outcome _ _ _ _ _
      (generate_pair_similar_returns self len1 len2 Hne Hsym Hlong) Hrun)
      as (xs & ys & Hs1 & Hs2 & Hxlen & Hylen & Hxs & Hys & Hdiff).
    simpl in Hs1, Hs2. subst str1 str2.
    assert (Forall is_char xs) by exact (Forall_elem_of_weaken _ _ _ Hsym Hxs).
    assert (Forall is_char ys) by exact (Forall_elem_of_weaken _ _ _ Hsym Hys).
    rewrite hamming_join_chars, !length_join by done. split; [lia | done].
Qed.

(** C9: for [len1] in [{1, 2}] and every [len2],
    [generate_pair(len1, len2, similar=True)] draws [str1] and then
    raises: [randint(1, len1 // 3)] has the empty range [1..0], so no
    pair is returned. *)
Theorem generate_pair_similar_short_raises alphabet self len1 len2 g :
  len1 = 1 \/ len1 = 2 ->
  __init__ alphabet = Ok self ->
  exists str1 g1,
    generate self len1 g = (Ok str1, g1) /\
    len1 / 3 = 0 /\
    randint 1 (len1 / 3) g1 = (Raise ValueError, g1) /\
    generate_pair self len1 len2 true g = (Raise ValueError, g1).
Proof.
  intros Hlen Hinit.
  pose proof (init_alphabet_nonempty _ _ Hinit) as Hne.
  destruct (string_generate_returns self len1 Hne g) as (str1 & g1 & Hgen & _).
  assert (Hdiv : len1 / 3 = 0) by (destruct Hlen as [-> | ->]; reflexivity).
  exists str1, g1. split; [exact Hgen|]. split; [exact Hdiv|].
  assert (Hdraw : randint 1 (len1 / 3) g1 = (Raise ValueError, g1))
    by (apply randint_empty; lia).
  split; [exact Hdraw|].
  unfold generate_pair, bind at 1. rewrite Hgen.
  unfold bind at 1. by rewrite Hdraw.
Qed.

(** C10: constructing a [StringGenerator] with an empty alphabet list
    or with no alphabet succeeds and leaves the generator with the
    default alphabet [['A', 'B', 'C']]; every string [generate]
    returns, and both strings of every pair [generate_pair] returns,
    are made of symbols of that alphabet. *)
Theorem empty_alphabet_defaults (alphabet : option (list string)) :
  alphabet = None \/ alphabet = Some [] ->
  exists self,
    __init__ alphabet = Ok self /\
    StringGenerator.alphabet self = ["A"; "B"; "C"]%string /\
    (forall size g, exists s g',
       generate self size g = (Ok s, g') /\
       drawn_from ["A"; "B"; "C"]%string s) /\
    (forall len1 len2 similar g str1 str2 g',
       generate_pair self len1 len2 similar g = (Ok (str1, str2), g') ->
       drawn_from ["A"; "B"; "C"]%string str1 /\
       drawn_from ["A"; "B"; "C"]%string str2).
Proof.
  intros Hempty.
  exists {| StringGenerator.alphabet := default_alphabet |}.
  split; [by destruct Hempty as [-> | ->]|].
  split; [reflexivity|].
  set (self := {| StringGenerator.alphabet := default_alphabet |}).
  assert (Hne : StringGenerator.alphabet self <> []) by done.
  assert (Hsym : Forall is_char (StringGenerator.alphabet self))
    by by repeat constructor.
  split.
  - intros size g.
    destruct (string_generate_returns self size Hne g) as (s & g' & Hgen & xs & -> & _ & Hxs).
    exists (join "" xs), g'. split; [exact Hgen|]. by exists xs.
  - intros len1 len2 similar g str1 str2 g' Hrun.
    destruct similar.
    + destruct (Z.lt_ge_cases len1 3) as [Hshort | Hlong].
      * destruct (generate_pair_similar_short self len1 len2 g Hne Hshort)
          as (g1 & Hfail).
        rewrite Hfail in Hrun. discriminate.
      * pose proof (returns_outcome _ _ _ _ _
          (generate_pair_similar_returns self len1 len2 Hne Hsym Hlong) Hrun)
          as (xs & ys & Hs1 & Hs2 & _ & _ & Hxs & Hys & _).
        simpl in Hs1, Hs2. subst str1 str2.
        split; [by exists xs | by exists ys].
    + pose proof (returns_outcome _ _ _ _ _
        (generate_pair_independent_returns self len1 len2 Hne) Hrun)
        as (xs & ys & Hs1 & Hs2 & _ & _ & Hxs & Hys).
      simpl in Hs1, Hs2. subst str1 str2.
      split; [by exists xs | by exists ys].
Qed.

(** C4, as the code has it: for an alphabet of characters none of the
    three calls is rejected.  [generate_pair(0, 5, similar=False)]
    returns the empty string and a string of five symbols;
    [generate_pair(5, -1, similar=True)] returns two strings of five
    symbols that differ in at most one position; and the constructor,
    given an empty alphabet, returns a generator over the default
    alphabet. *)
Theorem invalid_arguments_accepted alphabet self g :
  symbols_are_chars alphabet ->
  __init__ alphabet = Ok self ->
  (exists str2 g',
     generate_pair self 0 5 false g = (Ok (""%string, str2), g') /\
     String.length str2 = 5%nat) /\
  (exists str1 str2 g',
     generate_pair self 5 (-1) true g = (Ok (str1, str2), g') /\
     String.length str1 = 5%nat /\ String.length str2 = 5%nat /\
     (hamming str1 str2 <= 1)%nat) /\
  __init__ (Some []) = Ok {| StringGenerator.alphabet := ["A"; "B"; "C"]%string |}.
Proof.
  intros Hchars Hinit.
  pose proof (init_alphabet_nonempty _ _ Hinit) as Hne.
  pose proof (init_alphabet_chars _ _ Hchars Hinit) as Hsym.
  split; [|split; [|reflexivity]].
  - destruct (generate_pair_independent_returns self 0 5 Hne g)
      as ([s1 s2] & g' & Hrun & xs & ys & Hs1 & Hs2 & Hxlen & Hylen & _ & Hys).
    simpl in Hs1, Hs2. subst s1 s2.
    destruct xs; [|discriminate].
    exists (join "" ys), g'. split; [exact Hrun|].
    rewrite length_join by exact (Forall_elem_of_weaken _ _ _ Hsym Hys).
    rewrite Hylen. reflexivity.
  - destruct (generate_pair_similar_returns self 5 (-1) Hne Hsym ltac:(lia) g)
      as ([s1 s2] & g' & Hrun & xs & ys & Hs1 & Hs2 & Hxlen & Hylen & Hxs & Hys & Hdiff).
    simpl in Hs1, Hs2. subst s1 s2.
    assert (Forall is_char xs) by exact (Forall_elem_of_weaken _ _ _ Hsym Hxs).
    assert (Forall is_char ys) by exact (Forall_elem_of_weaken _ _ _ Hsym Hys).
    exists (join "" xs), (join "" ys), g'. split; [exact Hrun|].
    rewrite hamming_join_chars, !length_join by done.
    replace (5 / 3) with 1 in Hdiff by reflexivity.
    repeat split; lia.
Qed.

End StringGeneratorPairs.

(** ** [networkx] graphs *)

Section GraphFacts.

Import Nx.

Lemma add_node_present n graph : n ∈ _node graph -> add_node n graph = graph.
Proof. intros Hin. unfold add_node. by rewrite decide_True. Qed.

Lemma add_edge_present u v w graph :
  u ∈ _node graph -> v ∈ _node graph ->
  add_edge u v w graph =
    {| directed := directed graph;
       _node := _node graph;
       _adj := if directed graph
               then set_adj u v w (_adj graph)
               else set_adj v u w (set_adj u v w (_adj graph)) |}.
Proof.
  intros Hu Hv. unfold add_edge.
  by rewrite (add_node_present u), (add_node_present v).
Qed.

(** Adding fresh nodes one after the other appends them to the node
    list and creates empty adjacency rows. *)
Lemma add_nodes_fold xs graph :
  NoDup (_node graph ++ xs) ->
  (forall u, _adj graph !!! u = ∅) ->
  let graph' := foldl (fun gr i => add_node i gr) graph xs in
  directed graph' = directed graph /\
  _node graph' = _node graph ++ xs /\
  (forall u, _adj graph' !!! u = ∅).
Proof.
  revert graph. induction xs as [|x xs IH]; intros graph Hnd Hrows; simpl.
  - by rewrite app_nil_r.
  - assert (Hfresh : x ∉ _node graph).
    { apply NoDup_app in Hnd as (_ & Hdisj & _).
      intros Hin. apply (Hdisj x Hin). by left. }
    set (graph1 := {| directed := directed graph;
                       _node := _node graph ++ [x];
                       _adj := <[x := ∅]> (_adj graph) |}).
    assert (Hstep : add_node x graph = graph1)
      by (unfold add_node; by rewrite decide_False).
    rewrite Hstep. destruct (IH graph1) as (Hd & Hn & Hr).
    + simpl. by rewrite <- app_assoc.
    + intros u. simpl. rewrite lookup_total_insert.
      case_decide; [done | apply Hrows].
    + split; [exact Hd|]. split; [|exact Hr].
      rewrite Hn. simpl. by rewrite <- app_assoc.
Qed.

Lemma set_adj_entry a b x adj u v w :
  entry (set_adj a b x adj) u v w ->
  (u = a /\ v = b /\ w = x) \/ entry adj u v w.
Proof.
  unfold entry, set_adj. rewrite lookup_total_insert.
  case_decide as Hu; [subst u | by right].
  rewrite lookup_insert. case_decide as Hv; [subst v | by right].
  intros [= <-]. by left.
Qed.

Lemma set_adj_entry_new a b x adj : entry (set_adj a b x adj) a b x.
Proof.
  unfold entry, set_adj. by rewrite lookup_total_insert_eq, lookup_insert_eq.
Qed.

Lemma elem_of_row n nbrs u v w :
  (u, v, w) ∈ row n nbrs <-> u = n /\ nbrs !! v = Some w.
Proof.
  unfold row. rewrite list_elem_of_fmap. split.
  - intros ([v' w'] & [= -> -> ->] & Hin). simpl.
    split; [done|]. by apply elem_of_map_to_list.
  - intros [-> Hin]. exists (v, w). split; [done|].
    by apply elem_of_map_to_list.
Qed.

(** The edges of a directed graph are its adjacency entries. *)
Lemma elem_of_out_edges adj ns u v w :
  (u, v, w) ∈ out_edges adj ns <-> u ∈ ns /\ entry adj u v w.
Proof.
  unfold out_edges, entry. rewrite list_elem_of_bind. split.
  - intros (n & (-> & Hin)%elem_of_row & Hn). done.
  - intros [Hn Hin]. exists u. split; [|done]. by apply elem_of_row.
Qed.

(** The edges of an undirected graph are among its adjacency
    entries. *)
Lemma elem_of_once_edges adj ns seen u v w :
  (u, v, w) ∈ once_edges adj ns seen -> u ∈ ns /\ entry adj u v w.
Proof.
  revert seen. induction ns as [|n ns IH]; intros seen; simpl.
  - by intros ?%elem_of_nil.
  - rewrite elem_of_app. intros [Hrow | Hrest].
    + apply list_elem_of_filter in Hrow as (_ & (-> & Hin)%elem_of_row).
      split; [by left | done].
    + destruct (IH _ Hrest) as [Hu Hin]. split; [by right | done].
Qed.

Lemma elem_of_edges graph u v w :
  (u, v, w) ∈ edges graph -> u ∈ _node graph /\ entry (_adj graph) u v w.
Proof.
  unfold edges. destruct (directed graph).
  - by intros ?%elem_of_out_edges.
  - apply elem_of_once_edges.
Qed.

Lemma fmap_bind_list {A B C} (f : B -> C) (g : A -> list B) (l : list A) :
  f <$> (l ≫= g) = l ≫= (fun x => f <$> g x).
Proof.
  induction l as [|x l IH]; csimpl; [done|]. by rewrite fmap_app, IH.
Qed.

(** A directed graph lists no ordered pair twice. *)
Lemma NoDup_out_edges adj ns : NoDup ns -> NoDup (ends <$> out_edges adj ns).
Proof.
  intros Hnd. unfold out_edges. rewrite fmap_bind_list.
  apply NoDup_bind; [| |exact Hnd].
  - intros n1 n2 [u v] _ _ Hin1 Hin2. simpl in *.
    apply list_elem_of_fmap in Hin1 as ([[u1 v1] w1] & [= -> ->] & Hr1).
    apply list_elem_of_fmap in Hin2 as ([[u2 v2] w2] & [= Hu Hv] & Hr2).
    apply elem_of_row in Hr1 as [-> _]. apply elem_of_row in Hr2 as [-> _].
    done.
  - intros n _. simpl. unfold row. rewrite <- list_fmap_compose.
    apply (NoDup_fmap_2_strong _); [|apply NoDup_map_to_list].
    intros [v1 w1] [v2 w2] Hin1 Hin2 [= ->]. f_equal.
    apply elem_of_map_to_list in Hin1, Hin2. congruence.
Qed.

(** Paths follow the order of the end points when every edge does. *)
Lemma tc_edge_lt graph :
  (forall u v, edge graph u v -> u < v) ->
  forall u v, tc (edge graph) u v -> u < v.
Proof.
  intros Hedge u v Hpath.
  induction Hpath as [u v Huv | u v z Huv _ IH]; [by apply Hedge|].
  specialize (Hedge _ _ Huv). lia.
Qed.

End GraphFacts.

(** ** [GraphGenerator] *)

Section GraphGeneratorFacts.
Context {G : Type} {RS : RandomSource G}.

Import GraphGenerator.

(** A loop whose body draws nothing is a fold. *)
Lemma for_each_pure {A B} (f : A -> B -> B) (xs : list A) (acc : B) (g : G) :
  for_each xs (fun x b => ret (f x b)) acc g
  = (Ok (foldl (fun b x => f x b) acc xs), g).
Proof.
  revert acc. induction xs as [|x xs IH]; intros acc; simpl; [done|].
  unfold bind, ret at 1. apply IH.
Qed.

Lemma generated_nodes self size :
  generated self size
    (foldl (fun gr i => Nx.add_node i gr)
       (if directed self then Nx.new_DiGraph else Nx.new_Graph)
       (range 0 size)).
Proof.
  set (graph0 := if directed self then Nx.new_DiGraph else Nx.new_Graph).
  destruct (add_nodes_fold (range 0 size) graph0) as (Hd & Hn & Hrows).
  - unfold graph0. destruct (directed self); simpl; apply NoDup_seqZ.
  - intros u. unfold graph0. destruct (directed self); simpl;
      by rewrite lookup_total_empty.
  - split; [|split].
    + rewrite Hd. unfold graph0. by destruct (directed self).
    + rewrite Hn. unfold graph0. by destruct (directed self).
    + intros u v w. unfold entry. rewrite Hrows, lookup_empty. discriminate.
Qed.

Lemma generated_add_edge self size graph i j weight :
  generated self size graph ->
  i ∈ range 0 size -> j ∈ range (i + 1) size ->
  weight_ok (weighted self) weight ->
  generated self size (Nx.add_edge i j weight graph).
Proof.
  intros (Hd & Hn & Hentries) Hi Hj Hw.
  unfold range in Hi, Hj. apply elem_of_seqZ in Hi, Hj.
  rewrite add_edge_present.
  - split; [exact Hd|]. split; [exact Hn|]. simpl.
    intros u v w. rewrite Hd. destruct (directed self).
    + intros [(-> & -> & ->) | Hold]%set_adj_entry; [|by apply Hentries].
      split; [lia | exact Hw].
    + intros [(-> & -> & ->) | [(-> & -> & ->) | Hold]%set_adj_entry]%set_adj_entry;
        [| |by apply Hentries]; (split; [lia | exact Hw]).
  - rewrite Hn. unfold range. apply elem_of_seqZ. lia.
  - rewrite Hn. unfold range. apply elem_of_seqZ. lia.
Qed.

(** [generate(size)] returns for every [size]; its graph has the
    directedness of the generator, the nodes [range(size)] in order,
    and adjacency entries with end points in order (distinct, when
    undirected) and weights in the generator's range. *)
Lemma graph_generate_returns self size :
  returns (generate self size) (generated self size).
Proof.
  unfold generate.
  eapply returns_bind.
  { intros g. eexists _, g. split; [apply for_each_pure|].
    apply generated_nodes. }
  intros graph0 Hgraph0.
  eapply returns_bind; [|intros graph Hgraph; by apply returns_ret].
  apply returns_for_each_inv; [exact Hgraph0|].
  intros i graph1 Hi Hgraph1.
  apply returns_for_each_inv; [exact Hgraph1|].
  intros j graph Hj Hgraph.
  eapply returns_bind; [apply random_returns|].
  intros x _. destruct (lt_0_3 x); [|by apply returns_ret].
  apply (returns_bind _ _ (weight_ok (weighted self))).
  - unfold weight_ok. destruct (weighted self).
    + by apply randint_returns.
    + by apply returns_ret.
  - intros weight Hw. apply returns_ret. by apply generated_add_edge.
Qed.

(** A negative [size] makes every [range] empty: the fresh graph comes
    back and nothing is drawn. *)
Lemma generate_negative self size g :
  size < 0 ->
  generate self size g
  = (Ok (if directed self then Nx.new_DiGraph else Nx.new_Graph), g).
Proof.
  intros Hneg. unfold generate, range.
  rewrite seqZ_nil by lia. reflexivity.
Qed.

End GraphGeneratorFacts.

Section GraphGeneratorClaims.
Context {G : Type} {RS : RandomSource G}.

Import GraphGenerator.

(** C3: for [0 <= size] and a generator constructed with
    [directed=True], [generate(size)] returns a graph all of whose
    edges [(u, v)] have [u < v]; hence it has no self-loop, no
    2-cycle, no ordered pair listed twice, and no cycle: every path
    ascends in the node order. *)
Theorem directed_edges_ascend weighted self size g :
  0 <= size ->
  __init__ (Some true) weighted = Ok self ->
  exists graph g',
    generate self size g = (Ok graph, g') /\
    Nx.directed graph = true /\
    (forall u v w, (u, v, w) ∈ Nx.edges graph -> u < v) /\
    (forall u, ~ edge graph u u) /\
    (forall u v, edge graph u v -> ~ edge graph v u) /\
    NoDup (ends <$> Nx.edges graph) /\
    (forall u v, tc (edge graph) u v -> u < v) /\
    (forall u, ~ tc (edge graph) u u).
Proof.
  intros _ [= <-].
  destruct (graph_generate_returns
              {| directed := true; weighted := default true weighted |} size g)
    as (graph & g' & Hrun & Hd & Hn & Hentries).
  simpl in Hd, Hentries. exists graph, g'.
  assert (Hasc : forall u v w, (u, v, w) ∈ Nx.edges graph -> u < v).
  { intros u v w [_ Hin]%elem_of_edges. by apply Hentries in Hin as [? _]. }
  assert (Hedge : forall u v, edge graph u v -> u < v).
  { intros u v [w Hin]. by eapply Hasc. }
  pose proof (tc_edge_lt graph Hedge) as Hpath.
  split; [exact Hrun|]. split; [exact Hd|]. split; [exact Hasc|].
  split; [intros u Hu; apply Hedge in Hu; lia|].
  split; [intros u v Huv Hvu; apply Hedge in Huv, Hvu; lia|].
  split; [|split; [exact Hpath | intros u Hu; apply Hpath in Hu; lia]].
  unfold Nx.edges. rewrite Hd, Hn. apply NoDup_out_edges, NoDup_seqZ.
Qed.

(** C6: for [0 <= size] and any configuration, [generate(size)]
    returns a graph with exactly [size] nodes, the nodes
    [0, ..., size-1]. *)
Theorem generate_node_set self size g :
  0 <= size ->
  exists graph g',
    generate self size g = (Ok graph, g') /\
    Nx.nodes graph = seqZ 0 size /\
    len (Nx.nodes graph) = size /\
    NoDup (Nx.nodes graph) /\
    (forall n, n ∈ Nx.nodes graph <-> 0 <= n < size).
Proof.
  intros Hsize.
  destruct (graph_generate_returns self size g)
    as (graph & g' & Hrun & _ & Hn & _).
  exists graph, g'. unfold Nx.nodes, range in *.
  rewrite Hn, Z.sub_0_r. split; [exact Hrun|]. split; [done|].
  split; [unfold len; rewrite length_seqZ; lia|].
  split; [apply NoDup_seqZ|].
  intros n. rewrite elem_of_seqZ. lia.
Qed.

(** C7: for [0 <= size], every edge [(u, v, w)] of the graph
    [generate(size)] returns has [w = 1] when the generator is
    unweighted and [1 <= w <= 10] when it is weighted. *)
Theorem generate_weights self size g :
  0 <= size ->
  exists graph g',
    generate self size g = (Ok graph, g') /\
    forall u v w, (u, v, w) ∈ Nx.edges graph ->
      if weighted self then 1 <= w <= 10 else w = 1.
Proof.
  intros _.
  destruct (graph_generate_returns self size g)
    as (graph & g' & Hrun & _ & _ & Hentries).
  exists graph, g'. split; [exact Hrun|].
  intros u v w [_ Hin]%elem_of_edges.
  by apply Hentries in Hin as [_ ?].
Qed.

(** C8: for [0 <= size], two calls of [generate(size)], each made
    after seeding the source with the same seed, return the same
    graph, whatever the state of the source before: the same edges
    with the same weights.  The first part makes the two calls one
    after the other; the second starts them from two unrelated
    states. *)
Theorem generate_reproducible self size a g1 g2 :
  0 <= size ->
  (exists graph g',
     (let* _ := seed a in
      let* first := generate self size in
      let* _ := seed a in
      let* second := generate self size in
      ret (first, second)) g1 = (Ok (graph, graph), g')) /\
  (exists graph1 graph2 g1' g2',
     (let* _ := seed a in generate self size) g1 = (Ok graph1, g1') /\
     (let* _ := seed a in generate self size) g2 = (Ok graph2, g2') /\
     Nx.edges graph1 = Nx.edges graph2 /\ graph1 = graph2).
Proof.
  intros _.
  destruct (graph_generate_returns self size (rs_seed a))
    as (graph & g' & Hrun & _).
  split.
  - exists graph, g'. unfold bind, seed. by rewrite Hrun.
  - exists graph, graph, g', g'. unfold bind, seed. by rewrite Hrun.
Qed.

(** C5, as the code has it: a negative [size] is not rejected.
    [generate(size)] returns the fresh graph of the configured
    directedness, without nodes or edges, and draws nothing. *)
Theorem generate_negative_size_empty self size g :
  size < 0 ->
  exists graph,
    generate self size g = (Ok graph, g) /\
    Nx.directed graph = directed self /\
    Nx.nodes graph = [] /\
    Nx.edges graph = [] /\
    ~ rejects (generate self size) g.
Proof.
  intros Hneg. pose proof (generate_negative self size g Hneg) as Hrun.
  exists (if directed self then Nx.new_DiGraph else Nx.new_Graph).
  split; [exact Hrun|].
  split; [by destruct (directed self)|].
  split; [by destruct (directed self)|].
  split; [by destruct (directed self)|].
  intros (e & g' & Hfail). rewrite Hrun in Hfail. discriminate.
Qed.

End GraphGeneratorClaims.

(** ** Worked examples on the scripted source *)

Section Examples.

Import Fixture.

(** C1 at [generate_pair(10, 12, similar=True)] over [ACGT]: three
    mutations are made, one of them rewrites the symbol already
    there, and the strings differ at two positions. *)
Lemma generate_pair_similar_bound_witness :
  StringGenerator.generate_pair acgt 10 12 true tape_pair
    = (Ok ("ACGTAAAAAA", "TCGCAAAAAA")%string, []) /\
  Z.of_nat (hamming "ACGTAAAAAA" "TCGCAAAAAA") <= Z.max 1 (10 / 3) /\
  String.length "TCGCAAAAAA" = String.length "ACGTAAAAAA".
Proof.
  split; [reflexivity|].
  apply (generate_pair_similar_bound
           (Some ["A"; "C"; "G"; "T"]%string) acgt 10 12 tape_pair _ _ []).
  - lia.
  - lia.
  - intros a [= <-]. repeat constructor.
  - reflexivity.
  - reflexivity.
Defined.

(** C9 at [generate_pair(2, 2, similar=True)]. *)
Lemma generate_pair_similar_short_raises_witness :
  exists str1 g1,
    StringGenerator.generate acgt 2 tape_pair = (Ok str1, g1) /\
    2 / 3 = 0 /\
    randint 1 (2 / 3) g1 = (Raise ValueError, g1) /\
    StringGenerator.generate_pair acgt 2 2 true tape_pair
      = (Raise ValueError, g1).
Proof.
  apply (generate_pair_similar_short_raises
           (Some ["A"; "C"; "G"; "T"]%string) acgt 2 2 tape_pair).
  - right. reflexivity.
  - reflexivity.
Defined.

(** C2 at the failing input [generate_pair(2, 2, similar=True)]:
    after the two symbols of [str1] are drawn, the mutation count is
    asked of [randint(1, 0)], which raises; no count is drawn from
    [{1, ..., max(1, 2 // 3)} = {1}] and no mutation is made. *)
Theorem generate_pair_short_draws_no_count :
  StringGenerator.generate acgt 2 tape_pair
    = (Ok "AC"%string, drop 2 tape_pair) /\
  Z.max 1 (2 / 3) = 1 /\
  randint 1 (2 / 3) (drop 2 tape_pair) = (Raise ValueError, drop 2 tape_pair) /\
  StringGenerator.generate_pair acgt 2 2 true tape_pair
    = (Raise ValueError, drop 2 tape_pair) /\
  StringGenerator.generate_pair acgt 1 1 true tape_pair
    = (Raise ValueError, drop 1 tape_pair).
Proof. repeat split. Qed.

(** C10 at the empty alphabet list. *)
Lemma empty_alphabet_defaults_witness :
  exists self,
    StringGenerator.__init__ (Some []) = Ok self /\
    StringGenerator.alphabet self = ["A"; "B"; "C"]%string /\
    (forall size g, exists s g',
       StringGenerator.generate self size g = (Ok s, g') /\
       drawn_from ["A"; "B"; "C"]%string s) /\
    (forall len1 len2 similar g str1 str2 g',
       StringGenerator.generate_pair self len1 len2 similar g
         = (Ok (str1, str2), g') ->
       drawn_from ["A"; "B"; "C"]%string str1 /\
       drawn_from ["A"; "B"; "C"]%string str2).
Proof.
  apply (empty_alphabet_defaults (Some [])). right. reflexivity.
Defined.

(** C4 fails on the code: over [ACGT] the three calls return. *)
Lemma invalid_arguments_rejected_counterexample :
  (StringGenerator.generate_pair acgt 0 5 false tape_pair
     = (Ok ("", "ACGTA")%string, drop 5 tape_pair) /\
   ~ rejects (StringGenerator.generate_pair acgt 0 5 false) tape_pair) /\
  (StringGenerator.generate_pair acgt 5 (-1) true tape_pair
     = (Ok ("ACGTA", "CCGTA")%string, drop 8 tape_pair) /\
   ~ rejects (StringGenerator.generate_pair acgt 5 (-1) true) tape_pair) /\
  (StringGenerator.__init__ (Some [])
     = Ok {| StringGenerator.alphabet := ["A"; "B"; "C"]%string |} /\
   forall e, StringGenerator.__init__ (Some []) <> Raise e).
Proof.
  split; [|split]; (split; [reflexivity|]).
  - intros (e & g' & Hfail). discriminate.
  - intros (e & g' & Hfail). discriminate.
  - intros e. discriminate.
Qed.

(** C4, amended, over [ACGT]. *)
Lemma invalid_arguments_accepted_witness :
  (exists str2 g',
     StringGenerator.generate_pair acgt 0 5 false tape_pair
       = (Ok (""%string, str2), g') /\
     String.length str2 = 5%nat) /\
  (exists str1 str2 g',
     StringGenerator.generate_pair acgt 5 (-1) true tape_pair
       = (Ok (str1, str2), g') /\
     String.length str1 = 5%nat /\ String.length str2 = 5%nat /\
     (hamming str1 str2 <= 1)%nat) /\
  StringGenerator.__init__ (Some [])
    = Ok {| StringGenerator.alphabet := ["A"; "B"; "C"]%string |}.
Proof.
  apply (invalid_arguments_accepted (Some ["A"; "C"; "G"; "T"]%string)).
  - intros a [= <-]. repeat constructor.
  - reflexivity.
Defined.

(** C1 fails on the code for an alphabet with a symbol longer than a
    character.  Over [['AB']], [generate_pair(3, 3, similar=True)]
    draws [str1 = 'ABABAB'], copies its six characters, and its one
    mutation overwrites the character at index 0 by the whole symbol
    ['AB']: [str2 = 'ABBABAB'] has seven characters against six, and
    the two strings differ at four of the first six positions, more
    than [max(1, 3 // 3) = 1]. *)
Lemma generate_pair_any_alphabet_counterexample :
  exists self str1 str2 g',
    0 < 3 /\ 0 < 3 /\
    StringGenerator.__init__ (Some ["AB"]%string) = Ok self /\
    StringGenerator.generate_pair self 3 3 true [0; 0; 0; 0; 0; 0]
      = (Ok (str1, str2), g') /\
    str1 = "ABABAB"%string /\ str2 = "ABBABAB"%string /\
    String.length str1 = 6%nat /\ String.length str2 = 7%nat /\
    hamming str1 str2 = 4%nat /\
    ~ (Z.of_nat (hamming str1 str2) <= Z.max 1 (3 / 3) /\
       String.length str2 = String.length str1).
Proof.
  exists {| StringGenerator.alphabet := ["AB"]%string |},
    "ABABAB"%string, "ABBABAB"%string, [].
  repeat (split; [first [lia | reflexivity]|]).
  intros [_ Hlen]. discriminate Hlen.
Qed.

(** The same run, evaluated: a mutation replaces one character of
    [str2] by a whole symbol and the two strings no longer have the
    same length. *)
Example generate_pair_long_symbols :
  StringGenerator.generate_pair
    {| StringGenerator.alphabet := ["AB"]%string |} 3 3 true [0; 0; 0; 0; 0; 0]
  = (Ok ("ABABAB", "ABBABAB")%string, []).
Proof. reflexivity. Qed.

(** The generator of [main], directed and weighted, on four nodes:
    the tape selects four of the six pairs. *)
Example generate_digraph_example :
  exists graph,
    GraphGenerator.generate digraph 4 tape_graph = (Ok graph, []) /\
    Nx.nodes graph = [0; 1; 2; 3] /\
    Nx.edges graph ≡ₚ [(0, 1, 5); (0, 3, 3); (1, 3, 10); (2, 3, 1)].
Proof.
  eexists. split; [reflexivity|]. split; [reflexivity|].
  vm_compute. apply perm_swap.
Qed.

(** An undirected, unweighted graph lists each edge once, with
    weight 1, and draws no weight. *)
Example generate_graph_example :
  exists graph,
    GraphGenerator.generate
      {| GraphGenerator.directed := false; GraphGenerator.weighted := false |}
      4 tape_graph = (Ok graph, [0; 9; 0; 0]) /\
    Nx.nodes graph = [0; 1; 2; 3] /\
    Nx.edges graph ≡ₚ [(0, 1, 1); (0, 2, 1); (1, 2, 1); (1, 3, 1)].
Proof.
  eexists. split; [reflexivity|]. split; [reflexivity|].
  vm_compute. etrans; [apply perm_swap|].
  do 2 apply perm_skip. apply perm_swap.
Qed.

(** C3 on four nodes. *)
Lemma directed_edges_ascend_witness :
  exists graph g',
    GraphGenerator.generate digraph 4 tape_graph = (Ok graph, g') /\
    Nx.directed graph = true /\
    (forall u v w, (u, v, w) ∈ Nx.edges graph -> u < v) /\
    (forall u, ~ edge graph u u) /\
    (forall u v, edge graph u v -> ~ edge graph v u) /\
    NoDup (ends <$> Nx.edges graph) /\
    (forall u v, tc (edge graph) u v -> u < v) /\
    (forall u, ~ tc (edge graph) u u).
Proof.
  apply (directed_edges_ascend (Some true) digraph 4 tape_graph).
  - lia.
  - reflexivity.
Defined.

(** C6 on four nodes. *)
Lemma generate_node_set_witness :
  exists graph g',
    GraphGenerator.generate digraph 4 tape_graph = (Ok graph, g') /\
    Nx.nodes graph = seqZ 0 4 /\
    len (Nx.nodes graph) = 4 /\
    NoDup (Nx.nodes graph) /\
    (forall n, n ∈ Nx.nodes graph <-> 0 <= n < 4).
Proof. apply (generate_node_set digraph 4 tape_graph). lia. Defined.

(** C7 on four nodes. *)
Lemma generate_weights_witness :
  exists graph g',
    GraphGenerator.generate digraph 4 tape_graph = (Ok graph, g') /\
    forall u v w, (u, v, w) ∈ Nx.edges graph -> 1 <= w <= 10.
Proof. apply (generate_weights digraph 4 tape_graph). lia. Defined.

(** C8 with seed 42, from the exhausted tape and from a used one. *)
Lemma generate_reproducible_witness :
  (exists graph g',
     (let* _ := seed 42 in
      let* first := GraphGenerator.generate digraph 4 in
      let* _ := seed 42 in
      let* second := GraphGenerator.generate digraph 4 in
      ret (first, second)) [] = (Ok (graph, graph), g')) /\
  (exists graph1 graph2 g1' g2',
     (let* _ := seed 42 in GraphGenerator.generate digraph 4) []
       = (Ok graph1, g1') /\
     (let* _ := seed 42 in GraphGenerator.generate digraph 4) [7; 7]
       = (Ok graph2, g2') /\
     Nx.edges graph1 = Nx.edges graph2 /\ graph1 = graph2).
Proof. apply (generate_reproducible digraph 4 42 [] [7; 7]). lia. Defined.

(** Without the seed the second call reads on from where the first
    stopped, and the graphs differ. *)
Example generate_twice_unseeded :
  exists first second,
    (let* first := GraphGenerator.generate digraph 4 in
     let* second := GraphGenerator.generate digraph 4 in
     ret (first, second)) tape_graph = (Ok (first, second), []) /\
    length (Nx.edges first) = 4%nat /\
    length (Nx.edges second) = 6%nat.
Proof. eexists _, _. split; [reflexivity|]. split; reflexivity. Qed.

(** C5 fails on the code: [generate(-1)] returns the empty graph. *)
Lemma generate_negative_size_rejected_counterexample :
  GraphGenerator.generate digraph (-1) tape_graph
    = (Ok Nx.new_DiGraph, tape_graph) /\
  ~ rejects (GraphGenerator.generate digraph (-1)) tape_graph.
Proof.
  split; [reflexivity|]. intros (e & g' & Hfail). discriminate.
Qed.

(** C5, amended, at [size = -1]. *)
Lemma generate_negative_size_empty_witness :
  exists graph,
    GraphGenerator.generate digraph (-1) tape_graph = (Ok graph, tape_graph) /\
    Nx.directed graph = true /\
    Nx.nodes graph = [] /\
    Nx.edges graph = [] /\
    ~ rejects (GraphGenerator.generate digraph (-1)) tape_graph.
Proof. apply (generate_negative_size_empty digraph (-1) tape_graph). lia. Defined.

End Examples.

(** * The other generators and the factory *)

(** ** [LinearDataGenerator], [RandomDataGenerator], [NumberGenerator] *)

Section ScalarGenerators.
Context {G : Type} {RS : RandomSource G}.

(** X1: [LinearDataGenerator.generate(size)] is the list of the
    integers [1, ..., size] in increasing order: it has [max(size, 0)]
    elements, the element at index [i] is [i + 1], and it is empty for
    [size <= 0]. *)
Theorem linear_generate_counts size :
  length (LinearDataGenerator.generate size) = Z.to_nat size /\
  (forall (i : nat) x,
     LinearDataGenerator.generate size !! i = Some x
     <-> x = Z.of_nat i + 1 /\ Z.of_nat i < size) /\
  (forall x, x ∈ LinearDataGenerator.generate size <-> 1 <= x <= size) /\
  (LinearDataGenerator.generate size = [] <-> size <= 0).
Proof.
  unfold LinearDataGenerator.generate, range.
  replace (size + 1 - 1) with size by lia.
  split; [by rewrite length_seqZ|].
  split; [intros i x; rewrite lookup_seqZ; lia|].
  split; [intros x; rewrite elem_of_seqZ; lia|].
  split.
  - intros Hnil. apply (f_equal length) in Hnil.
    rewrite length_seqZ in Hnil. simpl in Hnil. lia.
  - apply seqZ_nil.
Qed.

Lemma random_generate_returns (self : RandomDataGenerator.t) size :
  RandomDataGenerator.low self <= RandomDataGenerator.high self ->
  returns (RandomDataGenerator.generate self size)
    (fun xs => length xs = Z.to_nat size /\
               Forall (fun x => RandomDataGenerator.low self <= x
                                <= RandomDataGenerator.high self) xs).
Proof.
  intros Hrange. unfold RandomDataGenerator.generate.
  eapply returns_impl.
  - apply returns_comprehension. intros _ _. by apply randint_returns.
  - intros xs [Hlen Hall]. split; [|exact Hall].
    rewrite Hlen. unfold range. rewrite length_seqZ. f_equal. lia.
Qed.

(** X2: with [low <= high], [RandomDataGenerator.generate(size)]
    returns [max(size, 0)] integers, each between [low] and [high]
    inclusive. *)
Theorem random_generate_in_range (self : RandomDataGenerator.t) size g :
  RandomDataGenerator.low self <= RandomDataGenerator.high self ->
  exists xs g',
    RandomDataGenerator.generate self size g = (Ok xs, g') /\
    length xs = Z.to_nat size /\
    Forall (fun x => RandomDataGenerator.low self <= x
                     <= RandomDataGenerator.high self) xs.
Proof. intros Hrange. apply (random_generate_returns self size Hrange g). Qed.

(** X3: with [high < low], [RandomDataGenerator.generate(size)] raises
    [ValueError] at its first draw when [size] is positive, and returns
    the empty list when [size <= 0]; either way nothing is drawn. *)
Theorem random_generate_empty_range (self : RandomDataGenerator.t) size g :
  RandomDataGenerator.high self < RandomDataGenerator.low self ->
  RandomDataGenerator.generate self size g
  = if 0 <? size then (Raise ValueError, g) else (Ok [], g).
Proof.
  intros Hrange. unfold RandomDataGenerator.generate, range.
  destruct (0 <? size) eqn:Hsize.
  - rewrite seqZ_cons by lia. simpl. unfold bind at 1.
    by rewrite randint_empty.
  - by rewrite seqZ_nil by lia.
Qed.

(** X4: without a fixed value and with [low <= high],
    [NumberGenerator.generate] returns an integer between [low] and
    [high] inclusive, whatever [size] is passed. *)
Theorem number_generate_in_range (self : NumberGenerator.t) size g :
  NumberGenerator.fixed self = None ->
  NumberGenerator.low self <= NumberGenerator.high self ->
  exists r g',
    NumberGenerator.generate self size g = (Ok r, g') /\
    NumberGenerator.low self <= r <= NumberGenerator.high self.
Proof.
  intros Hfixed Hrange. unfold NumberGenerator.generate. rewrite Hfixed.
  apply (randint_returns _ _ Hrange g).
Qed.

(** X5: with [high < low], [NumberGenerator.generate] raises
    [ValueError] unless a fixed value was given; a fixed value, zero
    included, is returned as it is and nothing is drawn. *)
Theorem number_generate_empty_range (self : NumberGenerator.t) size g :
  NumberGenerator.high self < NumberGenerator.low self ->
  NumberGenerator.generate self size g
  = match NumberGenerator.fixed self with
    | Some value => (Ok value, g)
    | None => (Raise ValueError, g)
    end.
Proof.
  intros Hrange. unfold NumberGenerator.generate.
  destruct (NumberGenerator.fixed self); [reflexivity|].
  by apply randint_empty.
Qed.

End ScalarGenerators.

(** ** [DataGeneratorFactory] *)

Section FactoryFacts.
Context {Gen : Type}.

Import DataGeneratorFactory.

Lemma get_generator_register (name name' : string) (generator : Gen) self :
  get_generator name' (register_generator name generator self)
  = if decide (name' = name) then Ok generator else get_generator name' self.
Proof.
  unfold get_generator, register_generator. simpl.
  rewrite lookup_insert. repeat case_decide; congruence.
Qed.

(** X6: after [register_generator(name, generator)],
    [get_generator(name)] returns that generator, replacing any earlier
    one, and every other name is looked up as before. *)
Theorem register_then_get (name name' : string) (generator : Gen) self :
  get_generator name (register_generator name generator self) = Ok generator /\
  get_generator name' (register_generator name generator self)
  = if decide (name' = name) then Ok generator else get_generator name' self.
Proof.
  rewrite !get_generator_register. repeat case_decide; done.
Qed.

Lemma get_after_register_all (regs : list (string * Gen)) name factory :
  get_generator name (register_all regs factory)
  = match last (filter (fun reg => reg.1 = name) regs) with
    | Some reg => Ok reg.2
    | None => get_generator name factory
    end.
Proof.
  revert factory. induction regs as [|[n gen] regs IH]; intros factory;
    [reflexivity|].
  change (register_all ((n, gen) :: regs) factory)
    with (register_all regs (register_generator n gen factory)).
  rewrite IH, get_generator_register, filter_cons. simpl.
  case_decide as Hn; [subst n; rewrite decide_True by done
                     | rewrite decide_False by congruence; reflexivity].
  rewrite last_cons. by destruct (last _).
Qed.

(** X7: on a factory set up by any run of registrations,
    [get_generator(name)] returns the generator registered last under
    [name], and raises [ValueError] when nothing was registered under
    it. *)
Theorem get_after_registrations (regs : list (string * Gen)) name :
  get_generator name (register_all regs __init__)
  = match last (filter (fun reg => reg.1 = name) regs) with
    | Some reg => Ok reg.2
    | None => Raise ValueError
    end.
Proof. by rewrite get_after_register_all. Qed.

End FactoryFacts.

(** ** [StringGenerator]: lengths and thresholds *)

Section StringGeneratorLengths.
Context {G : Type} {RS : RandomSource G}.

Import StringGenerator.

Lemma string_generate_nonpositive self size (g : G) :
  size <= 0 -> generate self size g = (Ok ""%string, g).
Proof.
  intros Hsize. unfold generate, choices, range.
  by rewrite seqZ_nil by lia.
Qed.

(** X8: for an alphabet of characters, [generate(size)] returns a
    string of exactly [max(size, 0)] characters, each of them a symbol
    of the generator's alphabet; for [size <= 0] it is the empty string
    and nothing is drawn. *)
Theorem generate_length alphabet self size g :
  symbols_are_chars alphabet ->
  __init__ alphabet = Ok self ->
  exists s g',
    generate self size g = (Ok s, g') /\
    String.length s = Z.to_nat size /\
    Forall (fun c => char_str c ∈ StringGenerator.alphabet self)
      (String.list_ascii_of_string s) /\
    (size <= 0 -> s = ""%string /\ g' = g).
Proof.
  intros Hchars Hinit.
  pose proof (init_alphabet_nonempty _ _ Hinit) as Hne.
  pose proof (init_alphabet_chars _ _ Hchars Hinit) as Hsym.
  destruct (string_generate_returns self size Hne g)
    as (s & g' & Hrun & xs & -> & Hlen & Hxs).
  exists (join "" xs), g'. split; [exact Hrun|].
  assert (Hcs : Forall is_char xs) by exact (Forall_elem_of_weaken _ _ _ Hsym Hxs).
  split; [by rewrite length_join|].
  split.
  - destruct (chars_inv xs Hcs) as (cs & ->).
    rewrite join_chars, String.list_ascii_of_string_of_list_ascii.
    by apply Forall_fmap in Hxs.
  - intros Hsize. rewrite string_generate_nonpositive in Hrun by done.
    by injection Hrun as <- <-.
Qed.

(** X9: for an alphabet of characters,
    [generate_pair(len1, len2, similar=False)] returns for all lengths,
    the first string [max(len1, 0)] characters long and the second
    [max(len2, 0)], whether or not the two lengths agree. *)
Theorem generate_pair_independent_lengths alphabet self len1 len2 g :
  symbols_are_chars alphabet ->
  __init__ alphabet = Ok self ->
  exists str1 str2 g',
    generate_pair self len1 len2 false g = (Ok (str1, str2), g') /\
    String.length str1 = Z.to_nat len1 /\
    String.length str2 = Z.to_nat len2.
Proof.
  intros Hchars Hinit.
  pose proof (init_alphabet_nonempty _ _ Hinit) as Hne.
  pose proof (init_alphabet_chars _ _ Hchars Hinit) as Hsym.
  destruct (generate_pair_independent_returns self len1 len2 Hne g)
    as ([s1 s2] & g' & Hrun & xs & ys & Hs1 & Hs2 & Hxlen & Hylen & Hxs & Hys).
  simpl in Hs1, Hs2. subst s1 s2.
  exists (join "" xs), (join "" ys), g'. split; [exact Hrun|].
  rewrite !length_join; [done | |];
    by eapply Forall_elem_of_weaken; [exact Hsym|].
Qed.

(** X10: for an alphabet of characters and [3 <= len1],
    [generate_pair(len1, len2, similar=True)] returns, and both strings
    are [len1] characters long whatever [len2] is. *)
Theorem generate_pair_similar_lengths alphabet self len1 len2 g :
  symbols_are_chars alphabet ->
  __init__ alphabet = Ok self ->
  3 <= len1 ->
  exists str1 str2 g',
    generate_pair self len1 len2 true g = (Ok (str1, str2), g') /\
    String.length str1 = Z.to_nat len1 /\
    String.length str2 = Z.to_nat len1.
Proof.
  intros Hchars Hinit Hlen1.
  pose proof (init_alphabet_nonempty _ _ Hinit) as Hne.
  pose proof (init_alphabet_chars _ _ Hchars Hinit) as Hsym.
  destruct (generate_pair_similar_returns self len1 len2 Hne Hsym Hlen1 g)
    as ([s1 s2] & g' & Hrun & xs & ys & Hs1 & Hs2 & Hxlen & Hylen & Hxs & Hys & _).
  simpl in Hs1, Hs2. subst s1 s2.
  exists (join "" xs), (join "" ys), g'. split; [exact Hrun|].
  rewrite !length_join; [lia | |];
    by eapply Forall_elem_of_weaken; [exact Hsym|].
Qed.

(** X11: for [len1 <= 0], [generate_pair(len1, len2, similar=True)]
    raises [ValueError] without drawing anything, for any alphabet:
    the empty [str1] is built and the mutation count has an empty
    range. *)
Theorem generate_pair_similar_nonpositive self len1 len2 (g : G) :
  len1 <= 0 ->
  generate_pair self len1 len2 true g = (Raise ValueError, g).
Proof.
  intros Hlen1. unfold generate_pair, bind at 1.
  rewrite string_generate_nonpositive by done.
  unfold bind at 1. rewrite randint_empty; [reflexivity|].
  apply Z.div_lt_upper_bound; lia.
Qed.

End StringGeneratorLengths.

(** ** [GraphGenerator]: adjacency, undirected listing and counts *)

Section GraphListing.

Import Nx.

Lemma set_adj_entry_iff a b x adj u v w :
  entry (set_adj a b x adj) u v w
  <-> (u = a /\ v = b /\ w = x) \/ ((u <> a \/ v <> b) /\ entry adj u v w).
Proof.
  unfold entry, set_adj. rewrite lookup_total_insert.
  case_decide as Hu.
  - subst u. rewrite lookup_insert. case_decide as Hv.
    + subst v. split; [intros [= <-]; by left|].
      intros [(_ & _ & ->) | [[?|?] _]]; done.
    + split; [intros Hin; right; split; [right; congruence | done]|].
      intros [(_ & -> & _) | [_ Hin]]; done.
  - split; [intros Hin; right; split; [left; congruence | done]|].
    intros [(-> & _ & _) | [_ Hin]]; done.
Qed.

Lemma add_edge_within size graph i j weight :
  within size (_adj graph) ->
  i ∈ _node graph -> j ∈ _node graph ->
  0 <= i < size -> 0 <= j < size ->
  within size (_adj (add_edge i j weight graph)).
Proof.
  intros Hwithin Hi Hj Hisize Hjsize. rewrite add_edge_present by done.
  simpl. intros u v w. destruct (directed graph).
  - intros [(-> & -> & ->) | Hold]%set_adj_entry; [lia | by eapply Hwithin].
  - intros [(-> & -> & ->) | [(-> & -> & ->) | Hold]%set_adj_entry]%set_adj_entry;
      [lia | lia | by eapply Hwithin].
Qed.

Lemma add_edge_symmetric graph i j weight :
  directed graph = false -> i <> j ->
  symmetric (_adj graph) ->
  i ∈ _node graph -> j ∈ _node graph ->
  symmetric (_adj (add_edge i j weight graph)).
Proof.
  intros Hund Hij Hsym Hi Hj. rewrite add_edge_present by done.
  simpl. rewrite Hund. intros u v w.
  rewrite !set_adj_entry_iff.
  intros [(-> & -> & ->) | [Hne [(-> & -> & ->) | [Hne' Hold]]]].
  - right. split; [lia|]. by left.
  - by left.
  - apply Hsym in Hold.
    right. split; [lia|]. right. split; [lia | done].
Qed.

(** The edges an undirected graph on the nodes [m, m+1, ...] lists. *)
Lemma elem_of_once_edges_seqZ adj (k : nat) m seen u v w :
  (u, v, w) ∈ once_edges adj (seqZ m (Z.of_nat k)) seen
  <-> m <= u < m + Z.of_nat k /\ entry adj u v w /\ (v ∉ seen) /\ ~ (m <= v < u).
Proof.
  revert m seen. induction k as [|k IH]; intros m seen.
  - simpl. rewrite elem_of_nil. lia.
  - rewrite seqZ_cons by lia.
    replace (Z.pred (Z.of_nat (S k))) with (Z.of_nat k) by lia.
    simpl. rewrite elem_of_app, list_elem_of_filter, elem_of_row, IH.
    simpl. rewrite not_elem_of_union, elem_of_singleton. unfold entry.
    split.
    + intros [(Hseen & -> & Hin) | (Hu & Hin & [Hm Hseen] & Hv)];
        (split; [lia|]); (split; [done|]); (split; [done|]); lia.
    + intros (Hu & Hin & Hseen & Hv).
      destruct (decide (u = m)) as [-> | Hne]; [by left|].
      right. split; [lia|]. split; [done|]. split; [|lia].
      split; [lia | done].
Qed.

Lemma row_ends_inj n nbrs e1 e2 :
  e1 ∈ row n nbrs -> e2 ∈ row n nbrs -> ends e1 = ends e2 -> e1 = e2.
Proof.
  destruct e1 as [[u1 v1] w1], e2 as [[u2 v2] w2].
  intros [-> Hin1]%elem_of_row [-> Hin2]%elem_of_row [= ->]. congruence.
Qed.

Lemma NoDup_row n nbrs : NoDup (row n nbrs).
Proof.
  unfold row. apply (NoDup_fmap_2_strong _); [|apply NoDup_map_to_list].
  intros [v1 w1] [v2 w2] _ _ [= -> ->]. done.
Qed.

(** An undirected graph lists no ordered pair twice. *)
Lemma NoDup_once_edges adj ns seen :
  NoDup ns -> NoDup (ends <$> once_edges adj ns seen).
Proof.
  intros Hnd. revert seen.
  induction Hnd as [|n ns Hn Hnd IH]; intros seen; simpl; [constructor|].
  rewrite fmap_app. apply NoDup_app. split; [|split; [|apply IH]].
  - apply (NoDup_fmap_2_strong _); [|apply NoDup_filter, NoDup_row].
    intros e1 e2 [_ H1]%list_elem_of_filter [_ H2]%list_elem_of_filter.
    by apply (row_ends_inj n (adj !!! n)).
  - intros [u v] Hfirst Hrest.
    apply list_elem_of_fmap in Hfirst as ([[u1 v1] w1] & [= -> ->] & Hin1).
    apply list_elem_of_fmap in Hrest as ([[u2 v2] w2] & [= -> ->] & Hin2).
    apply list_elem_of_filter in Hin1 as [_ [-> _]%elem_of_row].
    apply elem_of_once_edges in Hin2 as [Hin2 _]. done.
Qed.

Lemma elem_of_visited_pairs size u v :
  (u, v) ∈ visited_pairs size <-> 0 <= u < v /\ v < size.
Proof.
  unfold visited_pairs, range. rewrite list_elem_of_bind. split.
  - intros (i & Hin & Hi). apply list_elem_of_fmap in Hin as (j & [= -> ->] & Hj).
    apply elem_of_seqZ in Hi, Hj. lia.
  - intros Huv. exists u. split; [|apply elem_of_seqZ; lia].
    apply list_elem_of_fmap. exists v. split; [done|]. apply elem_of_seqZ. lia.
Qed.

Lemma length_pairs_from (k : nat) m stop :
  stop = m + Z.of_nat k ->
  2 * Z.of_nat (length (i ← seqZ m (Z.of_nat k);
                        (fun j => (i, j)) <$> seqZ (i + 1) (stop - (i + 1))))
  = Z.of_nat k * (Z.of_nat k - 1).
Proof.
  revert m. induction k as [|k IH]; intros m Hstop; [reflexivity|].
  rewrite seqZ_cons by lia.
  replace (Z.pred (Z.of_nat (S k))) with (Z.of_nat k) by lia.
  csimpl. rewrite length_app, length_fmap, length_seqZ.
  specialize (IH (Z.succ m) ltac:(lia)). lia.
Qed.

(** The edge loops visit [size * (size - 1) / 2] pairs. *)
Lemma length_visited_pairs size :
  0 <= size ->
  2 * Z.of_nat (length (visited_pairs size)) = size * (size - 1).
Proof.
  intros Hsize. unfold visited_pairs, range.
  replace (size - 0) with (Z.of_nat (Z.to_nat size)) by lia.
  rewrite (length_pairs_from (Z.to_nat size) 0 size) by lia. lia.
Qed.

End GraphListing.

Section GraphGeneratorListing.
Context {G : Type} {RS : RandomSource G}.

Import GraphGenerator.

(** Besides what [generated] says, the adjacency entries of the graph
    of [generate(size)] stay among the nodes, and mirror each other
    when the graph is undirected. *)
Lemma graph_generate_adjacency self size :
  returns (generate self size)
    (fun graph =>
       generated self size graph /\
       within size (Nx._adj graph) /\
       (directed self = false -> symmetric (Nx._adj graph))).
Proof.
  unfold generate.
  set (fresh := if directed self then Nx.new_DiGraph else Nx.new_Graph).
  apply (returns_bind _ _
           (fun graph0 =>
              graph0 = foldl (fun gr i => Nx.add_node i gr) fresh (range 0 size))).
  { intros g. eexists _, g. split; [apply for_each_pure | reflexivity]. }
  intros graph0 Hgraph0.
  eapply returns_bind; [|intros graph Hgraph; apply returns_ret; exact Hgraph].
  set (Inv := fun graph : Nx.Graph =>
    generated self size graph /\ within size (Nx._adj graph) /\
    (directed self = false -> symmetric (Nx._adj graph))).
  assert (Hstart : Inv graph0).
  { split; [rewrite Hgraph0; apply generated_nodes|].
    assert (Hnone : forall u v w, ~ entry (Nx._adj graph0) u v w).
    { destruct (add_nodes_fold (range 0 size) fresh) as (_ & _ & Hrows).
      - unfold fresh. destruct (directed self); simpl; apply NoDup_seqZ.
      - intros u. unfold fresh.
        destruct (directed self); simpl; by rewrite lookup_total_empty.
      - intros u v w. rewrite Hgraph0. unfold entry.
        rewrite Hrows, lookup_empty. discriminate. }
    split; [intros u v w Hin; by apply Hnone in Hin|].
    intros _ u v w Hin. by apply Hnone in Hin. }
  apply returns_for_each_inv; [exact Hstart|].
  intros i graph1 Hi Hgraph1.
  apply returns_for_each_inv; [exact Hgraph1|].
  intros j graph Hj (Hgen & Hwithin & Hsym).
  eapply returns_bind; [apply random_returns|].
  intros x _. destruct (lt_0_3 x); [|by apply returns_ret].
  apply (returns_bind _ _ (weight_ok (weighted self))).
  - unfold weight_ok. destruct (weighted self).
    + by apply randint_returns.
    + by apply returns_ret.
  - intros weight Hw. apply returns_ret.
    pose proof Hgen as (Hd & Hn & _).
    pose proof Hi as Hi'. pose proof Hj as Hj'.
    unfold range in Hi', Hj'. apply elem_of_seqZ in Hi', Hj'.
    assert (Hin_i : i ∈ Nx._node graph)
      by (rewrite Hn; unfold range; apply elem_of_seqZ; lia).
    assert (Hin_j : j ∈ Nx._node graph)
      by (rewrite Hn; unfold range; apply elem_of_seqZ; lia).
    split; [by apply generated_add_edge|].
    split; [apply add_edge_within; try done; lia|].
    intros Hund. apply add_edge_symmetric; try done; [congruence | lia | auto].
Qed.

End GraphGeneratorListing.

Section GraphGeneratorEdges.
Context {G : Type} {RS : RandomSource G}.

Import GraphGenerator.

Lemma seqZ_to_nat m n : seqZ m n = seqZ m (Z.of_nat (Z.to_nat n)).
Proof. unfold seqZ. by rewrite Nat2Z.id. Qed.

(** In either view, the listed edges of a generated graph are its
    adjacency entries taken from the lower end point. *)
Lemma elem_of_edges_generated self size graph u v w :
  generated self size graph -> within size (Nx._adj graph) ->
  (u, v, w) ∈ Nx.edges graph <-> u < v /\ entry (Nx._adj graph) u v w.
Proof.
  intros (Hd & Hn & Hentries) Hwithin. unfold Nx.edges.
  rewrite Hd, Hn. unfold range. destruct (directed self) eqn:Hdir.
  - rewrite elem_of_out_edges, elem_of_seqZ. split.
    + intros [_ Hin]. split; [|done]. by apply Hentries in Hin as [? _].
    + intros [_ Hin]. split; [|done]. apply Hwithin in Hin. lia.
  - rewrite seqZ_to_nat, elem_of_once_edges_seqZ. split.
    + intros (_ & Hin & _ & Hv). split; [|done].
      pose proof (Hwithin _ _ _ Hin). apply Hentries in Hin as [? _]. lia.
    + intros [Huv Hin]. pose proof (Hwithin _ _ _ Hin).
      split; [lia|]. split; [done|]. split; [set_solver | lia].
Qed.

Lemma NoDup_edges_generated self size graph :
  generated self size graph -> NoDup (ends <$> Nx.edges graph).
Proof.
  intros (_ & Hn & _). unfold Nx.edges. rewrite Hn.
  destruct (Nx.directed graph).
  - apply NoDup_out_edges, NoDup_seqZ.
  - apply NoDup_once_edges, NoDup_seqZ.
Qed.

(** X12: an undirected generator lists every edge once, from its lower
    to its higher end point: each listed [(u, v, w)] has [u < v], no
    pair of end points is listed twice, and a pair is never listed in
    both orders. *)
Theorem undirected_edges_once self size g :
  directed self = false ->
  exists graph g',
    generate self size g = (Ok graph, g') /\
    Nx.directed graph = false /\
    (forall u v w, (u, v, w) ∈ Nx.edges graph -> u < v) /\
    NoDup (ends <$> Nx.edges graph) /\
    (forall u v, edge graph u v -> ~ edge graph v u).
Proof.
  intros Hund.
  destruct (graph_generate_adjacency self size g)
    as (graph & g' & Hrun & Hgen & Hwithin & _).
  exists graph, g'. split; [exact Hrun|].
  split; [destruct Hgen as [-> _]; exact Hund|].
  assert (Hasc : forall u v w, (u, v, w) ∈ Nx.edges graph -> u < v).
  { intros u v w Hin.
    by apply (elem_of_edges_generated self size) in Hin as [? _]. }
  split; [exact Hasc|]. split; [by eapply NoDup_edges_generated|].
  intros u v [w Huv] [w' Hvu]. apply Hasc in Huv, Hvu. lia.
Qed.

(** X13: in the adjacency of an undirected generated graph every entry
    has its mirror image with the same weight, and the edge list is
    exactly the entries [(u, v, w)] with [u < v]. *)
Theorem undirected_adjacency_symmetric self size g :
  directed self = false ->
  exists graph g',
    generate self size g = (Ok graph, g') /\
    (forall u v w,
       entry (Nx._adj graph) u v w <-> entry (Nx._adj graph) v u w) /\
    (forall u v w,
       (u, v, w) ∈ Nx.edges graph <-> u < v /\ entry (Nx._adj graph) u v w).
Proof.
  intros Hund.
  destruct (graph_generate_adjacency self size g)
    as (graph & g' & Hrun & Hgen & Hwithin & Hsym).
  exists graph, g'. split; [exact Hrun|]. specialize (Hsym Hund).
  split; [intros u v w; split; apply Hsym|].
  intros u v w. by apply (elem_of_edges_generated self size).
Qed.

(** X14: in every configuration both end points of every listed edge
    are nodes of the graph, the first below the second: the edge is one
    of the pairs the loops visit. *)
Theorem edges_join_nodes self size g :
  exists graph g',
    generate self size g = (Ok graph, g') /\
    forall u v w, (u, v, w) ∈ Nx.edges graph ->
      u ∈ Nx.nodes graph /\ v ∈ Nx.nodes graph /\
      0 <= u < v /\ v < size /\ (u, v) ∈ visited_pairs size.
Proof.
  destruct (graph_generate_adjacency self size g)
    as (graph & g' & Hrun & Hgen & Hwithin & _).
  exists graph, g'. split; [exact Hrun|].
  intros u v w Hin.
  apply (elem_of_edges_generated self size) in Hin as [Huv Hin]; [|done..].
  pose proof (Hwithin _ _ _ Hin) as [Hu Hv].
  destruct Hgen as (_ & Hn & _). unfold Nx.nodes. rewrite Hn. unfold range.
  rewrite !elem_of_seqZ, elem_of_visited_pairs. lia.
Qed.

(** X15: for [0 <= size], in every configuration the generated graph
    has at most [size * (size - 1) / 2] edges. *)
Theorem edge_count_bound self size g :
  0 <= size ->
  exists graph g',
    generate self size g = (Ok graph, g') /\
    2 * len (Nx.edges graph) <= size * (size - 1).
Proof.
  intros Hsize.
  destruct (graph_generate_adjacency self size g)
    as (graph & g' & Hrun & Hgen & Hwithin & _).
  exists graph, g'. split; [exact Hrun|].
  rewrite <- (length_visited_pairs size Hsize). unfold len.
  rewrite <- (length_fmap ends (Nx.edges graph)).
  assert (length (ends <$> Nx.edges graph) <= length (visited_pairs size))%nat;
    [|lia].
  apply submseteq_length, NoDup_submseteq; [by eapply NoDup_edges_generated|].
  intros [u v] ([[u' v'] w] & [= -> ->] & Hin)%list_elem_of_fmap.
  apply (elem_of_edges_generated self size) in Hin as [Huv Hin]; [|done..].
  pose proof (Hwithin _ _ _ Hin). apply elem_of_visited_pairs. lia.
Qed.

(** X16: for [size <= 1] no pair is visited: [generate(size)] draws
    nothing and returns a graph without edges, on the single node [0]
    when [size = 1] and without nodes otherwise. *)
Theorem small_graph_draws_nothing self size g :
  size <= 1 ->
  exists graph,
    generate self size g = (Ok graph, g) /\
    Nx.nodes graph = (if size =? 1 then [0] else []) /\
    Nx.edges graph = [].
Proof.
  intros Hsize. destruct (size =? 1) eqn:Hone.
  - assert (size = 1) as -> by lia.
    destruct self as [[] w]; eexists; (split; [reflexivity|]); by split.
  - destruct (Z.le_gt_cases size 0) as [Hneg | Hpos]; [|lia].
    exists (if directed self then Nx.new_DiGraph else Nx.new_Graph).
    split.
    + unfold generate, range. by rewrite seqZ_nil by lia.
    + by destruct (directed self).
Qed.

End GraphGeneratorEdges.

(** ** Worked examples for the other generators *)

Section MoreExamples.

Import Fixture.

(** X2 at [RandomDataGenerator(0, 50).generate(3)], the generator
    [main] registers. *)
Lemma random_generate_in_range_witness :
  exists xs g',
    RandomDataGenerator.generate
      {| RandomDataGenerator.low := 0; RandomDataGenerator.high := 50 |}
      3 tape_graph = (Ok xs, g') /\
    length xs = Z.to_nat 3 /\
    Forall (fun x => 0 <= x <= 50) xs.
Proof.
  apply (random_generate_in_range
           {| RandomDataGenerator.low := 0; RandomDataGenerator.high := 50 |}
           3 tape_graph).
  simpl. lia.
Defined.

(** X3 at [RandomDataGenerator(5, 1).generate(3)]. *)
Lemma random_generate_empty_range_witness :
  RandomDataGenerator.generate
    {| RandomDataGenerator.low := 5; RandomDataGenerator.high := 1 |}
    3 tape_graph = (Raise ValueError, tape_graph).
Proof.
  apply (random_generate_empty_range
           {| RandomDataGenerator.low := 5; RandomDataGenerator.high := 1 |}
           3 tape_graph).
  simpl. lia.
Defined.

(** X4 at [NumberGenerator(1, 100).generate()], the generator [main]
    registers. *)
Lemma number_generate_in_range_witness :
  exists r g',
    NumberGenerator.generate
      {| NumberGenerator.low := 1; NumberGenerator.high := 100;
         NumberGenerator.fixed := None |} 1 tape_graph = (Ok r, g') /\
    1 <= r <= 100.
Proof.
  apply (number_generate_in_range
           {| NumberGenerator.low := 1; NumberGenerator.high := 100;
              NumberGenerator.fixed := None |} 1 tape_graph).
  - reflexivity.
  - simpl. lia.
Defined.

(** X5 at [NumberGenerator(5, 1, fixed=0).generate()]. *)
Lemma number_generate_empty_range_witness :
  NumberGenerator.generate
    {| NumberGenerator.low := 5; NumberGenerator.high := 1;
       NumberGenerator.fixed := Some 0 |} 1 tape_graph = (Ok 0, tape_graph).
Proof.
  apply (number_generate_empty_range
           {| NumberGenerator.low := 5; NumberGenerator.high := 1;
              NumberGenerator.fixed := Some 0 |} 1 tape_graph).
  simpl. lia.
Defined.

(** A run of registrations, the generators standing as their class
    names: every registered name is found, the name registered twice
    gives the later generator, and an unregistered name raises. *)
Example factory_example :
  let factory :=
    register_all
      [("linear", "LinearDataGenerator"); ("random", "RandomDataGenerator");
       ("number", "NumberGenerator"); ("graph", "GraphGenerator");
       ("number", "NumberGenerator(1, 100)")]%string
      DataGeneratorFactory.__init__ in
  DataGeneratorFactory.get_generator "graph" factory = Ok "GraphGenerator"%string /\
  DataGeneratorFactory.get_generator "number" factory
    = Ok "NumberGenerator(1, 100)"%string /\
  DataGeneratorFactory.get_generator "gaussian" factory = Raise ValueError.
Proof. repeat split. Qed.

(** X8 at [generate(10)] over [ACGT]. *)
Lemma generate_length_witness :
  exists s g',
    StringGenerator.generate acgt 10 tape_pair = (Ok s, g') /\
    String.length s = Z.to_nat 10 /\
    Forall (fun c => char_str c ∈ ["A"; "C"; "G"; "T"]%string)
      (String.list_ascii_of_string s) /\
    (10 <= 0 -> s = ""%string /\ g' = tape_pair).
Proof.
  apply (generate_length (Some ["A"; "C"; "G"; "T"]%string) acgt 10 tape_pair).
  - intros a [= <-]. repeat constructor.
  - reflexivity.
Defined.

(** X9 at [generate_pair(3, 5, similar=False)] over [ACGT]. *)
Lemma generate_pair_independent_lengths_witness :
  exists str1 str2 g',
    StringGenerator.generate_pair acgt 3 5 false tape_pair
      = (Ok (str1, str2), g') /\
    String.length str1 = Z.to_nat 3 /\
    String.length str2 = Z.to_nat 5.
Proof.
  apply (generate_pair_independent_lengths
           (Some ["A"; "C"; "G"; "T"]%string) acgt 3 5 tape_pair).
  - intros a [= <-]. repeat constructor.
  - reflexivity.
Defined.

(** X10 at [generate_pair(10, 12, similar=True)] over [ACGT], the call
    [main] makes. *)
Lemma generate_pair_similar_lengths_witness :
  exists str1 str2 g',
    StringGenerator.generate_pair acgt 10 12 true tape_pair
      = (Ok (str1, str2), g') /\
    String.length str1 = Z.to_nat 10 /\
    String.length str2 = Z.to_nat 10.
Proof.
  apply (generate_pair_similar_lengths
           (Some ["A"; "C"; "G"; "T"]%string) acgt 10 12 tape_pair).
  - intros a [= <-]. repeat constructor.
  - reflexivity.
  - lia.
Defined.

(** X11 at [generate_pair(0, 5, similar=True)] over [ACGT]. *)
Lemma generate_pair_similar_nonpositive_witness :
  StringGenerator.generate_pair acgt 0 5 true tape_pair
    = (Raise ValueError, tape_pair).
Proof.
  apply (generate_pair_similar_nonpositive acgt 0 5 tape_pair). lia.
Defined.

(** X12 on four nodes, undirected and unweighted. *)
Lemma undirected_edges_once_witness :
  exists graph g',
    GraphGenerator.generate
      {| GraphGenerator.directed := false; GraphGenerator.weighted := false |}
      4 tape_graph = (Ok graph, g') /\
    Nx.directed graph = false /\
    (forall u v w, (u, v, w) ∈ Nx.edges graph -> u < v) /\
    NoDup (ends <$> Nx.edges graph) /\
    (forall u v, edge graph u v -> ~ edge graph v u).
Proof.
  apply (undirected_edges_once
           {| GraphGenerator.directed := false; GraphGenerator.weighted := false |}
           4 tape_graph).
  reflexivity.
Defined.

(** X13 on four nodes, undirected and unweighted. *)
Lemma undirected_adjacency_symmetric_witness :
  exists graph g',
    GraphGenerator.generate
      {| GraphGenerator.directed := false; GraphGenerator.weighted := false |}
      4 tape_graph = (Ok graph, g') /\
    (forall u v w,
       entry (Nx._adj graph) u v w <-> entry (Nx._adj graph) v u w) /\
    (forall u v w,
       (u, v, w) ∈ Nx.edges graph <-> u < v /\ entry (Nx._adj graph) u v w).
Proof.
  apply (undirected_adjacency_symmetric
           {| GraphGenerator.directed := false; GraphGenerator.weighted := false |}
           4 tape_graph).
  reflexivity.
Defined.

(** X15 on four nodes: at most six edges; on the exhausted tape every
    draw succeeds and all six are there. *)
Lemma edge_count_bound_witness :
  exists graph g',
    GraphGenerator.generate digraph 4 [] = (Ok graph, g') /\
    2 * len (Nx.edges graph) <= 4 * (4 - 1).
Proof. apply (edge_count_bound digraph 4 []). lia. Defined.

Example edge_count_reached :
  exists graph,
    GraphGenerator.generate digraph 4 [] = (Ok graph, []) /\
    len (Nx.edges graph) = 6.
Proof. eexists. split; reflexivity. Qed.

(** X16 at [generate(1)]. *)
Lemma small_graph_draws_nothing_witness :
  exists graph,
    GraphGenerator.generate digraph 1 tape_graph = (Ok graph, tape_graph) /\
    Nx.nodes graph = [0] /\
    Nx.edges graph = [].
Proof. apply (small_graph_draws_nothing digraph 1 tape_graph). lia. Defined.

End MoreExamples.
